(** * Turn-taking orchestrator: a shallow embedding of [orchestrator/main.py]

    The development follows the Python source function by function:
    [ParticipantProcessor] with its speech state, [handle_vad],
    [reset_speech_state], [trigger_conversation_turn] and the three stage
    calls, [play_audio_to_room], and the [track_subscribed] handler of
    [main].  Coroutines are embedded as finite trees whose nodes are the
    [await] points of the source; a session is then a small transition
    system whose events are the moments at which the asyncio event loop
    resumes one of the session's coroutines. *)

From stdpp Require Import gmap strings list fin_maps.
From Stdlib Require Import ZArith NArith QArith Ascii Lia.

Open Scope Z_scope.

(** ** Python values *)

(** A [bytes]/[bytearray] value is a list of bytes; a [str] is a list of
    Unicode code points. *)
Abbreviation bytes := (list Byte.byte).
Abbreviation str := (list N).

(** Code points of an ASCII literal, for readable examples. *)
Fixpoint u (s : string) : str :=
  match s with
  | EmptyString => []
  | String c s' => N_of_ascii c :: u s'
  end.
Arguments u : simpl never.

(** [str.isspace] on one code point: the white-space table of CPython. *)
Definition py_isspace (c : N) : bool :=
  ((9 <=? c) && (c <=? 13) || (28 <=? c) && (c <=? 32)
   || (c =? 133) || (c =? 160) || (c =? 5760)
   || (8192 <=? c) && (c <=? 8202)
   || (c =? 8232) || (c =? 8233) || (c =? 8239) || (c =? 8287)
   || (c =? 12288))%N.

Fixpoint lstrip (s : str) : str :=
  match s with
  | [] => []
  | c :: s' => if py_isspace c then lstrip s' else s
  end.

(** [s.strip()]: leading and trailing white space removed. *)
Definition py_strip (s : str) : str := rev (lstrip (rev (lstrip s))).

(** ** The object store

    [self.audio_buffer] is a reference to one mutable [bytearray]; the
    store maps references to the current contents of the objects. *)
Abbreviation loc := positive.
Abbreviation store := (gmap loc bytes).

Definition ba_get (h : store) (l : loc) : bytes := default [] (h !! l).
(** [b.extend(data)] *)
Definition ba_extend (h : store) (l : loc) (data : bytes) : store :=
  <[l := ba_get h l ++ data]> h.
(** [b.clear()] *)
Definition ba_clear (h : store) (l : loc) : store := <[l := []]> h.
(** [bytearray()] *)
Definition ba_new (h : store) : loc * store :=
  let l := fresh (dom h) in (l, <[l := []]> h).

(** ** Configuration constants *)
Definition VAD_CHUNK_DURATION_MS : Z := 30.
Definition SILENCE_DURATION_MS : Z := 700.
Definition MAX_SPEECH_DURATION_S : Z := 20.
Definition BOT_IDENTITY : string := "bangla-bot".

(** ** ParticipantProcessor *)
Record ParticipantProcessor := mkProcessor {
  identity : string;            (* self.participant.identity *)
  audio_buffer : loc;           (* reference to the bytearray *)
  is_speaking : bool;
  silence_frames : Z;
  speech_duration_ms : Z;
  processing_lock : bool        (* asyncio.Lock: True when locked *)
}.

Definition set_is_speaking (b : bool) (p : ParticipantProcessor) :=
  mkProcessor (identity p) (audio_buffer p) b (silence_frames p)
              (speech_duration_ms p) (processing_lock p).
Definition set_silence_frames (n : Z) (p : ParticipantProcessor) :=
  mkProcessor (identity p) (audio_buffer p) (is_speaking p) n
              (speech_duration_ms p) (processing_lock p).
Definition set_speech_duration_ms (n : Z) (p : ParticipantProcessor) :=
  mkProcessor (identity p) (audio_buffer p) (is_speaking p) (silence_frames p)
              n (processing_lock p).
Definition set_processing_lock (b : bool) (p : ParticipantProcessor) :=
  mkProcessor (identity p) (audio_buffer p) (is_speaking p) (silence_frames p)
              (speech_duration_ms p) b.

(** [ParticipantProcessor.__init__] *)
Definition new_processor (h : store) (id : string) : store * ParticipantProcessor :=
  let '(l, h') := ba_new h in
  (h', mkProcessor id l false 0 0 false).

(** [reset_speech_state] *)
Definition reset_speech_state (h : store) (p : ParticipantProcessor)
  : store * ParticipantProcessor :=
  let p1 := set_is_speaking false p in
  let h1 := ba_clear h (audio_buffer p1) in
  let p2 := set_silence_frames 0 p1 in
  let p3 := set_speech_duration_ms 0 p2 in
  (h1, p3).

(** ** Outcomes of awaited calls *)

(** The source distinguishes [aiohttp.ClientError], which every stage
    catches itself, from any other exception. *)
Inductive exn := ClientError | OtherException.

(** What an [async with self.session.post(...)] block observes: an
    exception, or a response with its status and decoded body. *)
Inductive http (A : Type) :=
| Raised (e : exn)
| Response (status : Z) (body : A).
Arguments Raised {A} e.
Arguments Response {A} status body.

(** How a call of a source function ends. *)
Inductive completion (A : Type) :=
| Normal (a : A)
| Throws (e : exn).
Arguments Normal {A} a.
Arguments Throws {A} e.

(** ** handle_vad

    [r] is what the POST to the VAD service yields for [frame_data]; the
    body is [vad_result.get("is_speech")] ([None] when the key is absent).
    The result carries the number of [asyncio.create_task] calls made for
    [trigger_conversation_turn]. *)
Definition handle_vad (r : http (option bool)) (frame_data : bytes)
    (h : store) (p : ParticipantProcessor)
  : completion (store * ParticipantProcessor * nat) :=
  match r with
  | Raised ClientError => Normal (h, p, 0%nat)
  | Raised OtherException => Throws OtherException
  | Response status body =>
    if negb (status =? 200) then Normal (h, p, 0%nat)
    else
      let is_speech := default false body in
      let '(h1, p1, n1) :=
        if is_speech then
          let p := set_silence_frames 0 p in
          let p := if negb (is_speaking p) then set_is_speaking true p else p in
          let h := ba_extend h (audio_buffer p) frame_data in
          let p := set_speech_duration_ms
                     (speech_duration_ms p + VAD_CHUNK_DURATION_MS) p in
          (h, p, 0%nat)
        else if is_speaking p then
          let p := set_silence_frames (silence_frames p + 1) p in
          let silence_ms := silence_frames p * VAD_CHUNK_DURATION_MS in
          (h, p, if SILENCE_DURATION_MS <=? silence_ms then 1%nat else 0%nat)
        else (h, p, 0%nat) in
      let n2 :=
        if MAX_SPEECH_DURATION_S * 1000 <=? speech_duration_ms p1
        then 1%nat else 0%nat in
      Normal (h1, p1, (n1 + n2)%nat)
  end.

(** ** Coroutines

    The body of an [async def] is a finite tree: a leaf is the end of the
    coroutine ([Ret]) or an exception leaving it ([Throw]); an inner node
    is an [await] on the outside world, and its continuation takes what
    the await yields.  [DecodeMp3] stands for pydub's decoder followed by
    [set_frame_rate(48000).set_channels(1)] ([None] when it raises);
    [CaptureFrame] stands for [capture_frame] followed by the pacing
    [asyncio.sleep] ([false] when [capture_frame] raises). *)

(** One line of the answer service's streamed body, as the loop of
    [query_govt_api] sees it. *)
Inductive line :=
| Blank                                   (* a falsy line *)
| NotJson                                 (* json.loads raises JSONDecodeError *)
| Event (type : option str) (content : option str)
                                          (* event.get("type"), event.get("content") *)
| Broken (e : exn).                       (* reading or handling the line raises *)

Inductive coro (A : Type) : Type :=
| Ret (a : A)
| Throw
| PostSTT (file : bytes) (k : http (option str) -> coro A)
| PostGovt (user_id : string) (query : str) (k : http (list line) -> coro A)
| PostTTS (text : str) (k : http bytes -> coro A)
| DecodeMp3 (data : bytes) (k : option (list Z) -> coro A)
| CaptureFrame (frame : list Z) (k : bool -> coro A).
Arguments Ret {A} a.
Arguments Throw {A}.
Arguments PostSTT {A} file k.
Arguments PostGovt {A} user_id query k.
Arguments PostTTS {A} text k.
Arguments DecodeMp3 {A} data k.
Arguments CaptureFrame {A} frame k.

Fixpoint coro_bind {A B : Type} (f : A -> coro B) (c : coro A) : coro B :=
  match c with
  | Ret a => f a
  | Throw => Throw
  | PostSTT file k => PostSTT file (fun r => coro_bind f (k r))
  | PostGovt uid q k => PostGovt uid q (fun r => coro_bind f (k r))
  | PostTTS text k => PostTTS text (fun r => coro_bind f (k r))
  | DecodeMp3 d k => DecodeMp3 d (fun r => coro_bind f (k r))
  | CaptureFrame fr k => CaptureFrame fr (fun r => coro_bind f (k r))
  end.

#[export] Instance coro_mret : MRet coro := @Ret.
#[export] Instance coro_mbind : MBind coro := @coro_bind.

(** [try: c  except Exception: handler] *)
Fixpoint try_except {A : Type} (c : coro A) (handler : coro A) : coro A :=
  match c with
  | Ret a => Ret a
  | Throw => handler
  | PostSTT file k => PostSTT file (fun r => try_except (k r) handler)
  | PostGovt uid q k => PostGovt uid q (fun r => try_except (k r) handler)
  | PostTTS text k => PostTTS text (fun r => try_except (k r) handler)
  | DecodeMp3 d k => DecodeMp3 d (fun r => try_except (k r) handler)
  | CaptureFrame fr k => CaptureFrame fr (fun r => try_except (k r) handler)
  end.

(** Python truthiness of a sequence. *)
Definition truthy {A : Type} (l : list A) : bool :=
  match l with [] => false | _ :: _ => true end.

(** ** The three stage calls *)

(** [transcribe_audio]: [audio_data] is the reference it is called with;
    the bytes posted are the object's contents at the call. *)
Definition transcribe_audio (h : store) (audio_data : loc) : coro (option str) :=
  PostSTT (ba_get h audio_data) (fun r =>
    match r with
    | Raised ClientError => Ret None
    | Raised OtherException => Throw
    | Response status body =>
      if negb (status =? 200) then Ret None
      else
        let text := py_strip (default [] body) in
        Ret (if truthy text then Some text else None)
    end).

(** The [async for line in resp.content] loop of [query_govt_api]. *)
Fixpoint read_stream (lines : list line) (full_response : str) : completion str :=
  match lines with
  | [] => Normal full_response
  | Blank :: rest => read_stream rest full_response
  | NotJson :: rest => read_stream rest full_response
  | Event type content :: rest =>
    if bool_decide (type = Some (u "answer_chunk"))
    then read_stream rest (full_response ++ default [] content)
    else read_stream rest full_response
  | Broken e :: _ => Throws e
  end.

(** [query_govt_api] *)
Definition query_govt_api (p : ParticipantProcessor) (text : str) : coro (option str) :=
  PostGovt (identity p) text (fun r =>
    match r with
    | Raised ClientError => Ret None
    | Raised OtherException => Throw
    | Response status lines =>
      if negb (status =? 200) then Ret None
      else
        match read_stream lines [] with
        | Normal full_response => Ret (Some full_response)
        | Throws ClientError => Ret None
        | Throws OtherException => Throw
        end
    end).

(** [synthesize_speech] *)
Definition synthesize_speech (text : str) : coro (option bytes) :=
  PostTTS text (fun r =>
    match r with
    | Raised ClientError => Ret None
    | Raised OtherException => Throw
    | Response status audio_bytes =>
      if negb (status =? 200) then Ret None else Ret (Some audio_bytes)
    end).

(** ** play_audio_to_room *)

(** [int(48000 * (frame_duration_ms / 1000.0))] with
    [frame_duration_ms = 20]. *)
Definition frame_size : nat := 960.

(** [np.pad(chunk, (0, frame_size - len(chunk)), 'constant')] *)
Definition pad_frame (chunk : list Z) : list Z :=
  chunk ++ replicate (frame_size - length chunk) 0.

(** [x.astype(np.int16)] on one sample: the value wraps to 16 bits. *)
Definition astype_int16 (x : Z) : Z := (x + 32768) mod 65536 - 32768.

(** The samples of the frame made from one chunk: padded when short,
    then cast. *)
Definition frame_samples (chunk : list Z) : list Z :=
  let chunk :=
    if (length chunk <? frame_size)%nat then pad_frame chunk else chunk in
  map astype_int16 chunk.

(** The frames made from the chunks [pcm_data[i:i+frame_size]] for [i]
    in [range(0, len(pcm_data), frame_size)]. *)
Fixpoint split_frames (fuel : nat) (pcm_data : list Z) : list (list Z) :=
  match fuel with
  | O => []
  | S fuel' =>
    match pcm_data with
    | [] => []
    | _ :: _ =>
      frame_samples (take frame_size pcm_data)
        :: split_frames fuel' (drop frame_size pcm_data)
    end
  end.

Definition pcm_frames (pcm_data : list Z) : list (list Z) :=
  split_frames (length pcm_data) pcm_data.

(** The [for] loop: one [capture_frame] and one sleep per frame; an
    exception ends the loop (it is caught by the function's handler). *)
Fixpoint push_frames (frames : list (list Z)) : coro unit :=
  match frames with
  | [] => Ret tt
  | frame :: rest =>
    CaptureFrame frame (fun ok => if ok then push_frames rest else Ret tt)
  end.

Definition play_audio_to_room (audio_bytes : bytes) : coro unit :=
  DecodeMp3 audio_bytes (fun r =>
    match r with
    | None => Ret tt
    | Some pcm_data => push_frames (pcm_frames pcm_data)
    end).

(** ** trigger_conversation_turn *)

(** The [try ... except Exception ... finally] block. *)
Definition turn_stages (h : store) (p : ParticipantProcessor)
    (buffered_audio : loc) : coro unit :=
  try_except
    (transcribed_text ← transcribe_audio h buffered_audio;
     match transcribed_text with
     | None | Some [] => Ret tt
     | Some text =>
       govt_response ← query_govt_api p text;
       match govt_response with
       | None | Some [] => Ret tt
       | Some response =>
         synthesized_audio ← synthesize_speech response;
         match synthesized_audio with
         | None | Some [] => Ret tt
         | Some audio => play_audio_to_room audio
         end
       end
     end)
    (Ret tt).

(** The body of [async with self.processing_lock], entered with the lock
    just acquired.  Everything up to the first [await] runs at once; the
    coroutine returned is the rest, and the lock is released when it
    ends. *)
Definition trigger_conversation_turn (h : store) (p : ParticipantProcessor)
  : store * ParticipantProcessor * coro unit :=
  let p := set_processing_lock true p in
  if negb (truthy (ba_get h (audio_buffer p))) then
    let '(h, p) := reset_speech_state h p in
    (h, p, Ret tt)
  else
    let buffered_audio := audio_buffer p in
    let '(h, p) := reset_speech_state h p in
    (h, p, turn_stages h p buffered_audio).

(** ** Requests seen by the outside world *)
Inductive call :=
| CallVAD (frame_data : bytes)
| CallSTT (file : bytes)
| CallGovt (user_id : string) (query : str)
| CallTTS (text : str)
| Played (frame : list Z).

(** The request a suspended coroutine has issued. *)
Definition request_of {A : Type} (c : coro A) : list call :=
  match c with
  | PostSTT file _ => [CallSTT file]
  | PostGovt uid q _ => [CallGovt uid q]
  | PostTTS text _ => [CallTTS text]
  | CaptureFrame fr _ => [Played fr]
  | _ => []
  end.

(** ** One turn run on its own

    The collaborators of a turn, as functions of the request; [capture]
    also takes the number of frames already pushed in this turn. *)
Record services := mkServices {
  stt : bytes -> http (option str);
  govt : string -> str -> http (list line);
  tts : str -> http bytes;
  decode : bytes -> option (list Z);
  capture : nat -> list Z -> bool
}.

(** Runs a coroutine to its end against [env]; the result is the list of
    requests it made, in order. *)
Fixpoint exec {A : Type} (env : services) (pushed : nat) (c : coro A) : list call :=
  match c with
  | Ret _ => []
  | Throw => []
  | PostSTT file k => CallSTT file :: exec env pushed (k (stt env file))
  | PostGovt uid q k => CallGovt uid q :: exec env pushed (k (govt env uid q))
  | PostTTS text k => CallTTS text :: exec env pushed (k (tts env text))
  | DecodeMp3 d k => exec env pushed (k (decode env d))
  | CaptureFrame fr k => Played fr :: exec env (S pushed) (k (capture env pushed fr))
  end.

(** [await self.trigger_conversation_turn()] with the lock free at entry
    and nothing else of the session scheduled in between: the lock is
    taken, the turn runs, and leaving the [async with] block releases the
    lock. *)
Definition run_turn (env : services) (h : store) (p : ParticipantProcessor)
  : store * ParticipantProcessor * list call :=
  let '(h1, p1, c) := trigger_conversation_turn h p in
  (h1, set_processing_lock false p1, exec env 0 c).

Definition is_stt (c : call) : bool := match c with CallSTT _ => true | _ => false end.
Definition is_govt (c : call) : bool := match c with CallGovt _ _ => true | _ => false end.
Definition is_tts (c : call) : bool := match c with CallTTS _ => true | _ => false end.
Definition is_played (c : call) : bool := match c with Played _ => true | _ => false end.

(** ** A session under the event loop

    One session is the processor, its frame loop ([process_audio_stream],
    one per session: the participant has subscribed one audio track)
    and the turn tasks made by [asyncio.create_task].  The frame loop is
    at its [async for], or inside [handle_vad] awaiting the VAD reply for
    a frame it has resampled and posted, or it has ended.  A task is
    [Scheduled] until it gets past [async with self.processing_lock],
    then [Running] the rest of the turn, suspended at an await. *)
Inductive loop_pc :=
| AtFor
| AwaitVad (frame_data : bytes)
| LoopExited.

Inductive task :=
| Scheduled
| Running (c : coro unit)
| Finished.

Record session := mkSession {
  heap : store;
  self : ParticipantProcessor;
  loop : loop_pc;
  tasks : list task;
  calls : list call
}.

Inductive reply :=
| SttReply (r : http (option str))
| GovtReply (r : http (list line))
| TtsReply (r : http bytes)
| Decoded (r : option (list Z))
| Captured (ok : bool).

Inductive event :=
| Frame (resampled : bytes)      (* the stream yields a frame; its resampled data *)
| VadReply (r : http (option bool))
| Trigger                        (* a caller issues trigger_conversation_turn() *)
| Start (i : nat)                (* task [i] acquires the lock *)
| Resume (i : nat) (r : reply).  (* the await of task [i] completes *)

Definition is_scheduled (t : task) : bool :=
  match t with Scheduled => true | _ => false end.
Definition is_running (t : task) : bool :=
  match t with Running _ => true | _ => false end.

(** A task is ready to enter the turn: it is scheduled and the lock is
    free.  [asyncio.create_task] (and the release of the lock) puts such
    a task on the loop's ready queue, and the loop runs the ready queue
    each time the running coroutine suspends, before it polls for
    replies.  [handle_vad] suspends at its POST before it reads or
    writes the speech state, so a ready task has entered the turn by the
    time a VAD reply is handled: no [VadReply] is enabled while a task
    is startable.  The frame loop may or may not suspend at its
    [async for]; both orders of [Frame] and [Start] are therefore
    possible. *)
Definition startable (w : session) : bool :=
  negb (processing_lock (self w)) && existsb is_scheduled (tasks w).

Definition resume (c : coro unit) (r : reply) : option (coro unit) :=
  match c, r with
  | PostSTT _ k, SttReply r => Some (k r)
  | PostGovt _ _ k, GovtReply r => Some (k r)
  | PostTTS _ k, TtsReply r => Some (k r)
  | DecodeMp3 _ k, Decoded r => Some (k r)
  | CaptureFrame _ k, Captured ok => Some (k ok)
  | _, _ => None
  end.

(** Task [i] has run up to [c]: at the end of the coroutine the
    [async with] block is left and the lock released; otherwise the task
    is suspended at the request [c] starts with. *)
Definition settle (w : session) (i : nat) (c : coro unit) : session :=
  match c with
  | Ret _ | Throw =>
    mkSession (heap w) (set_processing_lock false (self w)) (loop w)
              (<[i := Finished]> (tasks w)) (calls w)
  | _ =>
    mkSession (heap w) (self w) (loop w)
              (<[i := Running c]> (tasks w)) (calls w ++ request_of c)
  end.

(** One iteration of [process_audio_stream] up to the await in
    [handle_vad]. *)
Definition process_audio_stream (resampled : bytes) (w : session) : session :=
  if processing_lock (self w) then w
  else mkSession (heap w) (self w) (AwaitVad resampled) (tasks w)
                 (calls w ++ [CallVAD resampled]).

Definition step (e : event) (w : session) : option session :=
  match e with
  | Frame resampled =>
    match loop w with
    | AtFor => Some (process_audio_stream resampled w)
    | _ => None
    end
  | VadReply r =>
    match loop w with
    | AwaitVad frame_data =>
      if startable w then None
      else
        match handle_vad r frame_data (heap w) (self w) with
        | Normal (h, p, created) =>
          Some (mkSession h p AtFor (tasks w ++ replicate created Scheduled) (calls w))
        | Throws _ =>
          Some (mkSession (heap w) (self w) LoopExited (tasks w) (calls w))
        end
    | _ => None
    end
  | Trigger =>
    Some (mkSession (heap w) (self w) (loop w) (tasks w ++ [Scheduled]) (calls w))
  | Start i =>
    match tasks w !! i with
    | Some Scheduled =>
      if processing_lock (self w) then None
      else
        let '(h, p, c) := trigger_conversation_turn (heap w) (self w) in
        Some (settle (mkSession h p (loop w) (tasks w) (calls w)) i c)
    | _ => None
    end
  | Resume i r =>
    match tasks w !! i with
    | Some (Running c) =>
      match resume c r with
      | Some c' => Some (settle w i c')
      | None => None
      end
    | _ => None
    end
  end.

Fixpoint run (evs : list event) (w : session) : option session :=
  match evs with
  | [] => Some w
  | e :: evs' =>
    match step e w with
    | Some w' => run evs' w'
    | None => None
    end
  end.

(** The session as [on_track_subscribed] creates it. *)
Definition new_session (id : string) : session :=
  let '(h, p) := new_processor ∅ id in
  mkSession h p AtFor [] [].

Definition speech : event := VadReply (Response 200 (Some true)).
Definition silence : event := VadReply (Response 200 (Some false)).

(** [n] frames with the given classification, one after the other. *)
Fixpoint feed (n : nat) (data : bytes) (classified : event) : list event :=
  match n with
  | O => []
  | S n' => Frame data :: classified :: feed n' data classified
  end.

Definition buffer (w : session) : bytes := ba_get (heap w) (audio_buffer (self w)).

(** ** Invariants of a session *)
(** Not speaking means nothing is left over from an utterance. *)
Definition idle_clean (w : session) : Prop :=
  is_speaking (self w) = false ->
  buffer w = [] /\ silence_frames (self w) = 0 /\ speech_duration_ms (self w) = 0.

(** Number of tasks inside the turn pipeline. *)
Definition in_flight (w : session) : nat := length (filter is_running (tasks w)).

Definition turn_due (p : ParticipantProcessor) : Prop :=
  SILENCE_DURATION_MS <= silence_frames p * VAD_CHUNK_DURATION_MS
  \/ MAX_SPEECH_DURATION_S * 1000 <= speech_duration_ms p.

Record inv (w : session) : Prop := mkInv {
  inv_idle : idle_clean w;
  inv_lock : in_flight w = if processing_lock (self w) then 1%nat else 0%nat;
  inv_locked :
    processing_lock (self w) = true ->
    silence_frames (self w) = 0 /\ speech_duration_ms (self w) <= 30 /\
    (forall d, loop w = AwaitVad d -> is_speaking (self w) = false);
  inv_due : turn_due (self w) -> startable w = true;
  inv_range :
    0 <= silence_frames (self w) <= 24 /\
    0 <= speech_duration_ms (self w) < 20030
}.

(** What the speech buffer holds.

    The buffer is the concatenation of the frames classified as speech
    since the last reset, and the accumulated duration counts them. *)
Definition framed (w : session) : Prop :=
  exists frames : list bytes,
    buffer w = concat frames /\
    speech_duration_ms (self w) = 30 * Z.of_nat (length frames).

(** ** Playback on the shared audio source

    [main] creates one [rtc.AudioSource] and passes it to every
    [ParticipantProcessor]; each running [play_audio_to_room] is a
    coroutine pushing its frames to it.  A player is such a coroutine
    with the number of frames it has pushed; the event loop resumes one
    player at a time, and the source records the frames in the order of
    the [capture_frame] calls, tagged here with the player's index. *)

(** The coroutine after [env] has answered the request it waits on. *)
Definition advance {A : Type} (env : services) (pushed : nat) (c : coro A)
  : option (coro A * nat) :=
  match c with
  | Ret _ => None
  | Throw => None
  | PostSTT file k => Some (k (stt env file), pushed)
  | PostGovt uid q k => Some (k (govt env uid q), pushed)
  | PostTTS text k => Some (k (tts env text), pushed)
  | DecodeMp3 d k => Some (k (decode env d), pushed)
  | CaptureFrame fr k => Some (k (capture env pushed fr), S pushed)
  end.

Record player := mkPlayer {
  playing : coro unit;
  pushed_frames : nat
}.

Record playback := mkPlayback {
  players : list player;
  track : list (nat * list Z)
}.

Definition frame_requested (c : coro unit) : list (list Z) :=
  match c with
  | CaptureFrame fr _ => [fr]
  | _ => []
  end.

(** The event loop resumes player [i]. *)
Definition resume_player (env : services) (i : nat) (s : playback) : option playback :=
  match players s !! i with
  | Some pl =>
    match advance env (pushed_frames pl) (playing pl) with
    | Some (c, n) =>
      Some (mkPlayback (<[i := mkPlayer c n]> (players s))
                       (track s ++ map (fun fr => (i, fr)) (frame_requested c)))
    | None => None
    end
  | None => None
  end.

Fixpoint play_run (env : services) (schedule : list nat) (s : playback)
  : option playback :=
  match schedule with
  | [] => Some s
  | i :: rest =>
    match resume_player env i s with
    | Some s' => play_run env rest s'
    | None => None
    end
  end.

(** Every session in [audios] has just called [play_audio_to_room]. *)
Definition start_playback (audios : list bytes) : playback :=
  mkPlayback (map (fun a => mkPlayer (play_audio_to_room a) 0) audios) [].

(** The frames of player [i] on the track, in track order. *)
Definition frames_of (i : nat) (tr : list (nat * list Z)) : list (list Z) :=
  map snd (filter (fun x => x.1 = i) tr).

(** The frames a payload decodes to. *)
Definition payload_frames (env : services) (audio : bytes) : list (list Z) :=
  match decode env audio with
  | Some pcm_data => pcm_frames pcm_data
  | None => []
  end.

(** The owners of the maximal runs of a track, one entry per run. *)
Fixpoint blocks (owners : list nat) : list nat :=
  match owners with
  | [] => []
  | a :: rest =>
    match rest with
    | [] => [a]
    | b :: _ => if (a =? b)%nat then blocks rest else a :: blocks rest
    end
  end.

(** A track is serialized when each player's frames form one run. *)
Definition serialized (tr : list (nat * list Z)) : Prop :=
  NoDup (blocks (map fst tr)).

(** Playback serialization across sessions, as the specification words
    it. *)
Definition playback_is_serialized : Prop :=
  forall env audios schedule s,
    play_run env schedule (start_playback audios) = Some s ->
    serialized (track s).

(** ** The session manager: the handlers of [main] *)

Inductive TrackKind := KIND_UNKNOWN | KIND_AUDIO | KIND_VIDEO.

(** [processors] with the store its processors live in, and the
    [process_audio_stream] tasks started so far, each named by the
    identity of the processor it runs on. *)
Record room := mkRoom {
  room_heap : store;
  processors : gmap string ParticipantProcessor;
  frame_loops : list string
}.

Definition empty_room : room := mkRoom ∅ ∅ [].

(** [on_track_subscribed] *)
Definition on_track_subscribed (kind : TrackKind) (participant : string)
    (r : room) : room :=
  match kind with
  | KIND_AUDIO =>
    if bool_decide (participant <> BOT_IDENTITY) then
      let r1 :=
        match processors r !! participant with
        | None =>
          let '(h, p) := new_processor (room_heap r) participant in
          mkRoom h (<[participant := p]> (processors r)) (frame_loops r)
        | Some _ => r
        end in
      mkRoom (room_heap r1) (processors r1) (frame_loops r1 ++ [participant])
    else r
  | _ => r
  end.

(** Number of frame loops running on the session of [participant]. *)
Definition loops_of (participant : string) (r : room) : nat :=
  length (filter (fun id => id = participant) (frame_loops r)).

(** Idempotence of track subscription, as the specification words it. *)
Definition second_arrival_is_noop : Prop :=
  forall r participant,
    is_Some (processors r !! participant) ->
    on_track_subscribed KIND_AUDIO participant r = r.

(** ** Error events of the answer service *)

Definition is_error_event (l : line) : bool :=
  match l with
  | Event type _ => bool_decide (type = Some (u "error"))
  | _ => false
  end.

(** The same collaborators, with the error events removed from the
    answer service's stream. *)
Definition without_error_events (env : services) : services :=
  mkServices (stt env)
    (fun uid q =>
       match govt env uid q with
       | Response status lines =>
         Response status (filter (fun l => is_error_event l = false) lines)
       | Raised e => Raised e
       end)
    (tts env) (decode env) (capture env).

(** An error event aborts the turn, as the specification words it. *)
Definition error_event_aborts_turn : Prop :=
  forall env h p lines,
    (forall uid q, govt env uid q = Response 200 lines) ->
    existsb is_error_event lines = true ->
    filter is_tts (run_turn env h p).2 = [] /\
    filter is_played (run_turn env h p).2 = [].

(** The utterance handed to transcription, as the specification words
    it: the bytes buffered while speaking. *)
Definition utterance_reaches_transcription : Prop :=
  forall env h p,
    truthy (ba_get h (audio_buffer p)) = true ->
    filter is_stt (run_turn env h p).2 = [CallSTT (ba_get h (audio_buffer p))].

(** ** Driving a turn in a session

    The replies [env] gives along a coroutine, in order: the events that
    take the task running it to its end. *)
Fixpoint replies {A : Type} (env : services) (pushed : nat) (c : coro A) : list reply :=
  match c with
  | Ret _ => []
  | Throw => []
  | PostSTT file k => SttReply (stt env file) :: replies env pushed (k (stt env file))
  | PostGovt uid q k =>
    GovtReply (govt env uid q) :: replies env pushed (k (govt env uid q))
  | PostTTS text k => TtsReply (tts env text) :: replies env pushed (k (tts env text))
  | DecodeMp3 d k => Decoded (decode env d) :: replies env pushed (k (decode env d))
  | CaptureFrame fr k =>
    Captured (capture env pushed fr)
      :: replies env (S pushed) (k (capture env pushed fr))
  end.

(** ** Sample inputs *)

Definition frame_a : bytes := [Byte.x01; Byte.x02].
Definition frame_z : bytes := [Byte.x00; Byte.x00].

(** Two speech frames, then 23 silence frames, then a frame that has
    been posted to the VAD service. *)
Definition before_threshold : list event :=
  feed 2 frame_a speech ++ feed 23 frame_z silence ++ [Frame frame_z].

(** One utterance ended by 24 silence frames, and its turn started. *)
Definition one_utterance : list event :=
  feed 2 frame_a speech ++ feed 24 frame_z silence ++ [Start 0%nat].

(** 666 speech frames, then a frame that has been posted to the VAD
    service. *)
Definition long_speech : list event := feed 666 frame_a speech ++ [Frame frame_a].

(** A session that has buffered two speech frames. *)
Definition speaking_heap : store := {[ 1%positive := frame_a ++ frame_a ]}.
Definition speaking_processor : ParticipantProcessor :=
  mkProcessor "alice" 1%positive true 0 60 false.

(** Collaborators that all succeed: transcription "hello", answer
    "world", three decoded samples. *)
Definition mock_services : services :=
  mkServices
    (fun _ => Response 200 (Some (u "hello")))
    (fun _ _ => Response 200 [Event (Some (u "answer_chunk")) (Some (u "world"))])
    (fun _ => Response 200 [Byte.x49; Byte.x44; Byte.x33])
    (fun _ => Some [1; 2; 3])
    (fun _ _ => true).

(** The same, with an answer stream that carries an error event after
    its first chunk. *)
Definition error_stream : list line :=
  [Event (Some (u "answer_chunk")) (Some (u "hi"));
   Event (Some (u "error")) (Some (u "boom"))].
Definition error_services : services :=
  mkServices (stt mock_services) (fun _ _ => Response 200 error_stream)
             (tts mock_services) (decode mock_services) (capture mock_services).

(** The same, with a transcription made of white space. *)
Definition blank_services : services :=
  mkServices (fun _ => Response 200 (Some (u "  ")))
             (govt mock_services) (tts mock_services) (decode mock_services)
             (capture mock_services).

(** A speaking session whose silence has reached the threshold: its turn
    is scheduled and the lock is free. *)
Definition turn_due_session : session :=
  mkSession speaking_heap (mkProcessor "alice" 1%positive true 24 60 false)
            AtFor [Scheduled] [].

(** Where a player stands with respect to its payload: it has not
    decoded it yet; or it is suspended on the frame [fr] of it, the
    frames before [fr] and [fr] itself being its frames on the track; or
    it has ended, its frames on the track being a prefix of the
    payload's. *)
Definition player_ok (env : services) (audio : bytes) (pl : player)
    (mine : list (list Z)) : Prop :=
  (playing pl = play_audio_to_room audio /\ mine = []) \/
  (exists before fr rest,
      payload_frames env audio = before ++ fr :: rest /\
      playing pl = push_frames (fr :: rest) /\
      mine = before ++ [fr]) \/
  (playing pl = Ret tt /\ mine `prefix_of` payload_frames env audio).

Definition playback_ok (env : services) (audios : list bytes) (s : playback) : Prop :=
  forall i audio pl,
    audios !! i = Some audio -> players s !! i = Some pl ->
    player_ok env audio pl (frames_of i (track s)).

(** Collaborators whose decoder yields 961 samples: two frames. *)
Definition two_frame_services : services :=
  mkServices (stt mock_services) (govt mock_services) (tts mock_services)
             (fun _ => Some (replicate 961 7)) (capture mock_services).

(** The session [one_utterance] leads to. *)
Definition after_one_utterance : session :=
  default (new_session "alice") (run one_utterance (new_session "alice")).

(** ** The services behind the orchestrator

    The three inference services, as their request handlers are
    written.  The model objects they call are parameters: [None] for a
    model that is not loaded, and a function that answers [None] when
    the call raises. *)

Module Vad.

(** [VAD_THRESHOLD = 0.5] *)
Definition VAD_THRESHOLD : Q := (1 # 2)%Q.

(** One little-endian signed 16-bit sample. *)
Definition int16_le (lo hi : Byte.byte) : Z :=
  let v := Z.of_N (Byte.to_N lo) + 256 * Z.of_N (Byte.to_N hi) in
  if 32768 <=? v then v - 65536 else v.

(** [np.frombuffer(audio_bytes, dtype=np.int16)]; it raises when the
    length is not a multiple of the sample size. *)
Fixpoint frombuffer_int16 (audio_bytes : bytes) : option (list Z) :=
  match audio_bytes with
  | [] => Some []
  | [_] => None
  | lo :: hi :: rest =>
    match frombuffer_int16 rest with
    | Some samples => Some (int16_le lo hi :: samples)
    | None => None
    end
  end.

(** [detect_speech]: the status and, on success, [is_speech] and
    [confidence].  The model is applied to the samples; the scaling by
    [1 / 32768.0] in between is exact.  [speech_prob] is the finite
    value the model yields. *)
Definition detect_speech (model : option (list Z -> option Q))
    (audio_bytes : bytes) : Z * option (bool * Q) :=
  match model with
  | None => (503, None)
  | Some run_model =>
    if (length audio_bytes =? 0)%nat then (200, Some (false, 0%Q))
    else
      match frombuffer_int16 audio_bytes with
      | None => (500, None)
      | Some audio_int16 =>
        match run_model audio_int16 with
        | None => (500, None)
        | Some speech_prob =>
          (200, Some (Qle_bool VAD_THRESHOLD speech_prob, speech_prob))
        end
      end
  end.

(** The response as [handle_vad] reads it: the status and
    [vad_result.get("is_speech")]. *)
Definition reply (response : Z * option (bool * Q)) : http (option bool) :=
  Response response.1 (option_map fst response.2).

End Vad.

Module Stt.

(** [transcribe_audio] of the STT service: the status and, on success,
    the ["transcription"] field. *)
Definition transcribe_audio (pipe : option (bytes -> option str))
    (audio_content : bytes) : http (option str) :=
  match pipe with
  | None => Response 503 None
  | Some run_pipe =>
    match run_pipe audio_content with
    | None => Response 500 None
    | Some text => Response 200 (Some (py_strip text))
    end
  end.

End Stt.

Module Tts.

(** [synthesize_speech] of the TTS service: the status and, on
    success, the MP3 bytes.  [gtts] stands for [gTTS(...)] followed by
    [write_to_fp]. *)
Definition synthesize_speech (gtts : str -> string -> option bytes)
    (text : str) (lang : string) : http bytes :=
  if negb (truthy text) || negb (truthy (py_strip text)) then Response 400 []
  else
    match gtts text lang with
    | None => Response 500 []
    | Some audio => Response 200 audio
    end.

End Tts.

(** The collaborators of a turn when transcription and synthesis are
    the two services above; the orchestrator posts ["lang": "bn"]. *)
Definition deployed (pipe : option (bytes -> option str))
    (answer : string -> str -> http (list line))
    (gtts : str -> string -> option bytes)
    (decoder : bytes -> option (list Z)) (capturer : nat -> list Z -> bool)
  : services :=
  mkServices (Stt.transcribe_audio pipe) answer
             (fun text => Tts.synthesize_speech gtts text "bn")
             decoder capturer.

(** ** More of the answer stream *)

(** The content an event adds to the answer. *)
Definition chunk_of (l : line) : str :=
  match l with
  | Event type content =>
    if bool_decide (type = Some (u "answer_chunk")) then default [] content else []
  | _ => []
  end.

Definition is_broken (l : line) : bool :=
  match l with Broken _ => true | _ => false end.

(** ** More of the session manager *)

(** [on_participant_disconnected], run as one step: the room after it
    and the processors it has closed. *)
Definition on_participant_disconnected (participant : string) (r : room)
  : room * list ParticipantProcessor :=
  match processors r !! participant with
  | Some p =>
    (mkRoom (room_heap r) (delete participant (processors r)) (frame_loops r), [p])
  | None => (r, [])
  end.

Inductive room_event :=
| TrackSubscribed (kind : TrackKind) (participant : string)
| ParticipantDisconnected (participant : string).

Definition room_step (e : room_event) (r : room) : room :=
  match e with
  | TrackSubscribed kind participant => on_track_subscribed kind participant r
  | ParticipantDisconnected participant =>
    (on_participant_disconnected participant r).1
  end.

Definition room_run (events : list room_event) (r : room) : room :=
  foldl (fun r e => room_step e r) r events.

(** Every tracked processor is filed under its own identity and owns a
    buffer of the store, and no two of them own the same buffer. *)
Definition room_ok (r : room) : Prop :=
  (forall id p, processors r !! id = Some p ->
     identity p = id /\ is_Some (room_heap r !! audio_buffer p)) /\
  (forall id1 id2 p1 p2,
     processors r !! id1 = Some p1 -> processors r !! id2 = Some p2 ->
     audio_buffer p1 = audio_buffer p2 -> id1 = id2).

(** ** More sample inputs *)

Definition is_vad (c : call) : bool := match c with CallVAD _ => true | _ => false end.

(** One classified frame per element of [frames]. *)
Definition feed_frames (frames : list bytes) (classified : event) : list event :=
  flat_map (fun d => [Frame d; classified]) frames.

(** A model that hears speech in every chunk. *)
Definition loud_model : option (list Z -> option Q) := Some (fun _ => Some (4 # 5)%Q).

(** A speaking session at its [async for], nothing scheduled. *)
Definition listening_session : session :=
  mkSession speaking_heap speaking_processor AtFor [] [].

(** The requests of a turn come in pipeline order, each stage at most
    once and only after the stage before it, frames only after a
    synthesis request. *)
Definition pipeline_order (id : string) (log : list call) : Prop :=
  exists (files : list bytes) (queries texts : list str) (frames : list (list Z)),
    log = map CallSTT files ++ map (CallGovt id) queries
          ++ map CallTTS texts ++ map Played frames /\
    (length files <= 1)%nat /\
    (length queries <= length files)%nat /\
    (length texts <= length queries)%nat /\
    (length frames <= length frames * length texts)%nat.

(** A failed call of a stage: an exception, or a status other than
    200. *)
Definition failed {A : Type} (r : http A) : bool :=
  match r with
  | Raised _ => true
  | Response status _ => negb (status =? 200)
  end.

(** A string that does not begin with white space. *)
Definition starts_clean (s : str) : Prop :=
  match s with [] => True | c :: _ => py_isspace c = false end.

(** A VAD reply that [handle_vad] does not treat as speech and that
    does not end the frame loop: a [ClientError], a status other than
    200, or a body whose [is_speech] is false or absent. *)
Definition not_speech (r : http (option bool)) : bool :=
  match r with
  | Raised ClientError => true
  | Raised OtherException => false
  | Response status body => negb (status =? 200) || negb (default false body)
  end.

(** Frames taken one after the other, each with the reply of its VAD
    request. *)
Definition classified (frames : list (bytes * http (option bool))) : list event :=
  flat_map (fun fr => [Frame fr.1; VadReply fr.2]) frames.

(** A session suspended at the VAD request of [frame_a]. *)
Definition awaiting_session : session :=
  mkSession speaking_heap speaking_processor (AwaitVad frame_a) [] [CallVAD frame_a].

(** ** The end of a turn under any schedule *)

(** The speech state as [reset_speech_state] leaves it. *)
Definition is_idle (w : session) : Prop :=
  is_speaking (self w) = false /\ buffer w = [] /\
  silence_frames (self w) = 0 /\ speech_duration_ms (self w) = 0.

(** The step from [w] to [w'] is the one at which the turn of task [i]
    ends. *)
Definition ends_turn (i : nat) (w w' : session) : Prop :=
  tasks w !! i <> Some Finished /\ tasks w' !! i = Some Finished.

(** At the end of every turn the lock is free and the session is idle,
    as the specification words it. *)
Definition turn_ends_idle : Prop :=
  forall id evs w e w' i,
    run evs (new_session id) = Some w ->
    step e w = Some w' ->
    ends_turn i w w' ->
    processing_lock (self w') = false /\ is_idle w'.

(** The session holds one frame, the one whose VAD request was pending
    (the frame loop being at [l0]) when the turn took the lock: the
    start of a new utterance. *)
Definition holds_pending_frame (l0 : loop_pc) (w : session) : Prop :=
  exists d,
    l0 = AwaitVad d /\ is_speaking (self w) = true /\ buffer w = d /\
    silence_frames (self w) = 0 /\ speech_duration_ms (self w) = 30.

(** The session while a turn holds the lock, the frame loop having been
    at [l0] when the lock was taken. *)
Definition during_turn (l0 : loop_pc) (w : session) : Prop :=
  processing_lock (self w) = true /\
  ((is_idle w /\ (loop w = l0 \/ forall d, loop w <> AwaitVad d)) \/
   (holds_pending_frame l0 w /\ forall d, loop w <> AwaitVad d)).

(** What the speech buffer holds, and where it comes from: the frames
    classified as speech since the last reset, each of them a frame
    posted to the VAD service, one for each 30 ms of accumulated
    duration. *)
Definition framed_posted (w : session) : Prop :=
  (exists frames : list bytes,
     buffer w = concat frames /\
     speech_duration_ms (self w) = 30 * Z.of_nat (length frames) /\
     Forall (fun d => In (CallVAD d) (calls w)) frames) /\
  (forall d, loop w = AwaitVad d -> In (CallVAD d) (calls w)).

(** One speech frame and 24 silence frames, so that [handle_vad]
    creates a turn; the next frame is posted before the turn takes the
    lock and is classified as speech while the turn awaits the
    transcription. *)
Definition racing_turn : list event :=
  feed 1 frame_a speech ++ feed 24 frame_z silence
    ++ [Frame frame_a; Start 0%nat; speech].

Definition racing_session : session :=
  default (new_session "alice") (run racing_turn (new_session "alice")).

(** The transcription service answers 503 and the turn ends. *)
Definition racing_session_end : session :=
  default racing_session
    (step (Resume 0%nat (SttReply (Response 503 None))) racing_session).

(** Two speech frames and 24 silence frames: a turn is due; then the
    turn has taken the lock. *)
Definition due_session : session :=
  default (new_session "alice")
    (run (feed 2 frame_a speech ++ feed 24 frame_z silence) (new_session "alice")).

Definition started_session : session :=
  default due_session (step (Start 0%nat) due_session).

(** A speech frame handled, then a frame posted. *)
Definition speech_heard : list event := feed 1 frame_a speech ++ [Frame frame_a].

(** * Properties *)

(** ** The store *)

Lemma ba_get_extend h l data : ba_get (ba_extend h l data) l = ba_get h l ++ data.
Proof. unfold ba_get at 1, ba_extend. by rewrite lookup_insert_eq. Qed.

Lemma ba_get_clear h l : ba_get (ba_clear h l) l = [].
Proof. unfold ba_get, ba_clear. by rewrite lookup_insert_eq. Qed.

Lemma ba_get_new h : ba_get (ba_new h).2 (ba_new h).1 = [].
Proof. unfold ba_get, ba_new. simpl. by rewrite lookup_insert_eq. Qed.

(** ** Strings *)

Lemma lstrip_nil_iff s : lstrip s = [] <-> forallb py_isspace s = true.
Proof.
  induction s as [|c s IH]; simpl; [done|].
  destruct (py_isspace c); simpl; [done|]. split; discriminate.
Qed.

Lemma lstrip_suffix s : exists pre, s = pre ++ lstrip s /\ forallb py_isspace pre = true.
Proof.
  induction s as [|c s [pre [E Hp]]]; simpl.
  - by exists [].
  - destruct (py_isspace c) eqn:Hc.
    + exists (c :: pre). simpl. rewrite Hc, Hp. split; [by f_equal|done].
    + by exists [].
Qed.

Lemma forallb_rev {A} (f : A -> bool) (l : list A) :
  forallb f (rev l) = forallb f l.
Proof.
  induction l as [|a l IH]; simpl; [done|].
  rewrite forallb_app, IH. simpl. destruct (f a), (forallb f l); done.
Qed.

(** [strip()] gives the empty string exactly on the strings that are
    empty or made of white space only. *)
Lemma py_strip_nil_iff s : py_strip s = [] <-> forallb py_isspace s = true.
Proof.
  unfold py_strip. split.
  - intros H. destruct (lstrip_suffix s) as [pre [E Hp]].
    assert (Hn : lstrip (rev (lstrip s)) = []).
    { destruct (lstrip (rev (lstrip s))) as [|a l]; [done|].
      simpl in H. destruct (rev l); discriminate. }
    apply lstrip_nil_iff in Hn. rewrite forallb_rev in Hn.
    rewrite E, forallb_app, Hp, Hn. done.
  - intros H. apply lstrip_nil_iff in H. rewrite H. done.
Qed.


Lemma filter_running_insert (l : list task) i t t' :
  l !! i = Some t ->
  (length (filter is_running (<[i := t']> l)) + (if is_running t then 1 else 0)
   = length (filter is_running l) + (if is_running t' then 1 else 0))%nat.
Proof.
  revert i. induction l as [|a l IH]; intros [|i] H; simpl in *; try done.
  - injection H as ->. rewrite !filter_cons.
    destruct (is_running t), (is_running t'); simpl;
      repeat case_decide; simpl; try done; try lia;
      try (exfalso; naive_solver).
  - specialize (IH i H). rewrite !filter_cons.
    case_decide; simpl; lia.
Qed.

Lemma existsb_scheduled_app l l' :
  existsb is_scheduled l = true -> existsb is_scheduled (l ++ l') = true.
Proof. intros H. rewrite existsb_app, H. done. Qed.

Lemma filter_running_scheduled l n :
  filter is_running (l ++ replicate n Scheduled) = filter is_running l.
Proof.
  rewrite filter_app. induction n as [|n IH]; simpl.
  - by rewrite app_nil_r.
  - rewrite filter_cons. case_decide as Hd; [simpl in Hd; done|]. exact IH.
Qed.

Lemma inv_new_session id : inv (new_session id).
Proof.
  unfold new_session, new_processor.
  destruct (ba_new ∅) as [l h'] eqn:E.
  split; unfold idle_clean, in_flight, turn_due, startable, buffer; simpl.
  - intros _. pose proof (ba_get_new ∅) as H. rewrite E in H. simpl in H. done.
  - done.
  - discriminate.
  - unfold SILENCE_DURATION_MS, MAX_SPEECH_DURATION_S, VAD_CHUNK_DURATION_MS. lia.
  - lia.
Qed.

Lemma running_in_flight w i c :
  tasks w !! i = Some (Running c) -> (1 <= in_flight w)%nat.
Proof.
  intros H. unfold in_flight.
  pose proof (filter_running_insert _ i _ Finished H) as E. simpl in E. lia.
Qed.

Lemma running_locked w i c :
  inv w -> tasks w !! i = Some (Running c) -> processing_lock (self w) = true.
Proof.
  intros [_ L _ _ _] H. apply running_in_flight in H.
  destruct (processing_lock (self w)); [done | lia].
Qed.

(** Leaving or continuing a turn keeps the invariant, whenever the task
    is the one holder of the lock and the speech state is as a turn
    leaves it. *)
Lemma inv_settle w i t c :
  tasks w !! i = Some t ->
  idle_clean w ->
  processing_lock (self w) = true ->
  (in_flight w + (if is_running t then 0 else 1) = 1)%nat ->
  silence_frames (self w) = 0 ->
  0 <= speech_duration_ms (self w) <= 30 ->
  (forall d, loop w = AwaitVad d -> is_speaking (self w) = false) ->
  inv (settle w i c).
Proof.
  intros Ht Hidle Hlock Hcount Hsf Hdur Hloop.
  assert (Hfin : inv (mkSession (heap w) (set_processing_lock false (self w))
                        (loop w) (<[i := Finished]> (tasks w)) (calls w))).
  { split; unfold idle_clean, in_flight, turn_due, startable, buffer in *; simpl.
    - exact Hidle.
    - pose proof (filter_running_insert _ i _ Finished Ht) as E. simpl in E.
      destruct (is_running t); lia.
    - discriminate.
    - unfold SILENCE_DURATION_MS, MAX_SPEECH_DURATION_S, VAD_CHUNK_DURATION_MS. lia.
    - lia. }
  assert (Hrun : inv (mkSession (heap w) (self w) (loop w)
                        (<[i := Running c]> (tasks w)) (calls w ++ request_of c))).
  { split; unfold idle_clean, in_flight, turn_due, startable, buffer in *; simpl.
    - exact Hidle.
    - pose proof (filter_running_insert _ i _ (Running c) Ht) as E. simpl in E.
      rewrite Hlock. destruct (is_running t); lia.
    - intros _. repeat split; [done | lia | done].
    - unfold SILENCE_DURATION_MS, MAX_SPEECH_DURATION_S, VAD_CHUNK_DURATION_MS. lia.
    - lia. }
  unfold settle. destruct c; done.
Qed.

Lemma inv_frame w resampled w' :
  inv w -> step (Frame resampled) w = Some w' -> inv w'.
Proof.
  intros Hinv H. simpl in H. destruct (loop w) eqn:El; try done.
  injection H as <-. unfold process_audio_stream.
  destruct (processing_lock (self w)) eqn:Elock; [done|].
  destruct Hinv as [I1 I2 I3 I4 I5].
  split; unfold idle_clean, in_flight, turn_due, startable, buffer in *; simpl;
    try done.
  rewrite Elock in *. done.
Qed.

Lemma inv_trigger w w' :
  inv w -> step Trigger w = Some w' -> inv w'.
Proof.
  intros [I1 I2 I3 I4 I5] H. simpl in H. injection H as <-.
  split; unfold idle_clean, in_flight, turn_due, startable, buffer in *; simpl;
    try done.
  - change [Scheduled] with (replicate 1 Scheduled).
    by rewrite filter_running_scheduled.
  - intros Hd. specialize (I4 Hd). apply andb_true_iff in I4 as [-> Hs].
    simpl. by apply existsb_scheduled_app.
Qed.

Lemma reset_speech_state_spec h p :
  reset_speech_state h p =
  (ba_clear h (audio_buffer p),
   mkProcessor (identity p) (audio_buffer p) false 0 0 (processing_lock p)).
Proof. done. Qed.

Lemma trigger_conversation_turn_state h p :
  (trigger_conversation_turn h p).1 =
  (ba_clear h (audio_buffer p),
   mkProcessor (identity p) (audio_buffer p) false 0 0 true).
Proof.
  unfold trigger_conversation_turn. simpl.
  destruct (truthy (ba_get h (audio_buffer p))); done.
Qed.

Lemma inv_start w i w' :
  inv w -> step (Start i) w = Some w' -> inv w'.
Proof.
  intros Hinv H. simpl in H.
  destruct (tasks w !! i) as [[| |]|] eqn:Et; try done.
  destruct (processing_lock (self w)) eqn:Elock; [done|].
  pose proof (trigger_conversation_turn_state (heap w) (self w)) as Est.
  destruct (trigger_conversation_turn (heap w) (self w)) as [[h p] c].
  simpl in Est. injection Est as -> ->. injection H as <-.
  destruct Hinv as [I1 I2 I3 I4 I5]. rewrite Elock in I2.
  apply (inv_settle _ i Scheduled); simpl; try done.
  - unfold idle_clean, buffer. simpl. intros _. by rewrite ba_get_clear.
  - unfold in_flight in *. simpl. lia.
Qed.

Lemma settle_speech_state w i c :
  heap (settle w i c) = heap w /\
  is_speaking (self (settle w i c)) = is_speaking (self w) /\
  silence_frames (self (settle w i c)) = silence_frames (self w) /\
  speech_duration_ms (self (settle w i c)) = speech_duration_ms (self w) /\
  audio_buffer (self (settle w i c)) = audio_buffer (self w) /\
  loop (settle w i c) = loop w.
Proof. unfold settle. destruct c; done. Qed.

Lemma inv_resume w i r w' :
  inv w -> step (Resume i r) w = Some w' -> inv w'.
Proof.
  intros Hinv H. simpl in H.
  destruct (tasks w !! i) as [[|c|]|] eqn:Et; try done.
  destruct (resume c r) as [c'|]; [|done]. injection H as <-.
  pose proof (running_locked _ _ _ Hinv Et) as Hlock.
  destruct Hinv as [I1 I2 I3 I4 I5]. rewrite Hlock in I2.
  destruct (I3 Hlock) as (Hsf & Hdur & Hloop).
  apply (inv_settle _ i (Running c)); simpl; try done; lia.
Qed.

(** [handle_vad] on a frame classified as speech. *)
Lemma handle_vad_speech b frame_data h p :
  default false b = true ->
  handle_vad (Response 200 b) frame_data h p =
  Normal (ba_extend h (audio_buffer p) frame_data,
          mkProcessor (identity p) (audio_buffer p) true 0
                      (speech_duration_ms p + 30) (processing_lock p),
          if 20000 <=? speech_duration_ms p + 30 then 1%nat else 0%nat).
Proof.
  intros Hb. unfold handle_vad. simpl. rewrite Hb.
  destruct p as [id l [|] sf dur lk]; reflexivity.
Qed.

(** [handle_vad] on a frame classified as silence. *)
Lemma handle_vad_silence b frame_data h p :
  default false b = false ->
  handle_vad (Response 200 b) frame_data h p =
  if is_speaking p then
    Normal (h, set_silence_frames (silence_frames p + 1) p,
            Nat.add (if 700 <=? (silence_frames p + 1) * 30 then 1%nat else 0%nat)
                    (if 20000 <=? speech_duration_ms p then 1%nat else 0%nat))
  else
    Normal (h, p, if 20000 <=? speech_duration_ms p then 1%nat else 0%nat).
Proof.
  intros Hb. unfold handle_vad. simpl. rewrite Hb.
  destruct p as [id l [|] sf dur lk]; reflexivity.
Qed.

Lemma not_startable_not_due w :
  inv w -> startable w = false ->
  silence_frames (self w) * 30 < 700 /\ speech_duration_ms (self w) < 20000.
Proof.
  intros [_ _ _ I4 _] Hs. unfold turn_due in I4.
  unfold SILENCE_DURATION_MS, MAX_SPEECH_DURATION_S, VAD_CHUNK_DURATION_MS in I4.
  split.
  - destruct (Z_lt_ge_dec (silence_frames (self w) * 30) 700) as [|Hge]; [done|].
    rewrite I4 in Hs; [done | left; lia].
  - destruct (Z_lt_ge_dec (speech_duration_ms (self w)) 20000) as [|Hge]; [done|].
    rewrite I4 in Hs; [done | right; lia].
Qed.

Lemma inv_set_loop w l :
  inv w -> (forall d, l <> AwaitVad d) ->
  inv (mkSession (heap w) (self w) l (tasks w) (calls w)).
Proof.
  intros [I1 I2 I3 I4 I5] Hl.
  split; unfold idle_clean, in_flight, turn_due, startable, buffer in *; simpl;
    try done.
  intros Hlock. destruct (I3 Hlock) as (? & ? & _). repeat split; try done.
  intros d Hd. by destruct (Hl d).
Qed.

Lemma inv_vad w r w' :
  inv w -> step (VadReply r) w = Some w' -> inv w'.
Proof.
  intros Hinv H. simpl in H.
  destruct (loop w) as [|frame_data|] eqn:El; try done.
  destruct (startable w) eqn:Es; [done|].
  destruct (not_startable_not_due _ Hinv Es) as [Hsf Hdur].
  assert (Hsame : forall l, (forall d, l <> AwaitVad d) ->
            inv (mkSession (heap w) (self w) l (tasks w ++ replicate 0 Scheduled) (calls w))).
  { intros l Hl. simpl. rewrite app_nil_r. by apply inv_set_loop. }
  destruct r as [[|]|status body].
  - simpl in H. injection H as <-. by apply Hsame.
  - simpl in H. injection H as <-. simpl in Hsame. rewrite app_nil_r in Hsame.
    by apply Hsame.
  - destruct (status =? 200) eqn:E200.
    2:{ unfold handle_vad in H. rewrite E200 in H. simpl in H.
        injection H as <-. by apply Hsame. }
    apply Z.eqb_eq in E200 as ->.
    destruct Hinv as [I1 I2 I3 I4 I5].
    destruct (default false body) eqn:Eb.
    + rewrite (handle_vad_speech _ _ _ _ Eb) in H. injection H as <-.
      split; unfold idle_clean, in_flight, turn_due, startable, buffer in *; simpl.
      * discriminate.
      * by rewrite filter_running_scheduled.
      * intros Hlock. destruct (I3 Hlock) as (_ & _ & Hl).
        destruct (I1 (Hl _ El)) as (_ & _ & ->). repeat split; try done.
      * unfold SILENCE_DURATION_MS, MAX_SPEECH_DURATION_S, VAD_CHUNK_DURATION_MS.
        intros [Hd|Hd]; [lia|].
        destruct (processing_lock (self w)) eqn:Elock.
        { destruct (I3 eq_refl) as (_ & _ & Hl).
          destruct (I1 (Hl _ El)) as (_ & _ & E0). lia. }
        simpl. rewrite existsb_app.
        destruct (20000 <=? speech_duration_ms (self w) + 30) eqn:E; [|lia].
        simpl. by rewrite orb_true_r.
      * lia.
    + rewrite (handle_vad_silence _ _ _ _ Eb) in H.
      destruct (is_speaking (self w)) eqn:Esp.
      * injection H as <-.
        assert (Elock : processing_lock (self w) = false).
        { destruct (processing_lock (self w)) eqn:Elock; [|done].
          destruct (I3 eq_refl) as (_ & _ & Hl). by specialize (Hl _ El). }
        split; unfold idle_clean, in_flight, turn_due, startable, buffer in *; simpl.
        -- rewrite Esp. discriminate.
        -- by rewrite filter_running_scheduled.
        -- rewrite Elock. discriminate.
        -- unfold SILENCE_DURATION_MS, MAX_SPEECH_DURATION_S, VAD_CHUNK_DURATION_MS.
           intros [Hd|Hd]; [|lia]. rewrite Elock. simpl. rewrite existsb_app.
           destruct (700 <=? (silence_frames (self w) + 1) * 30) eqn:E; [|lia].
           simpl. by rewrite orb_true_r.
        -- lia.
      * injection H as <-.
        destruct (20000 <=? speech_duration_ms (self w)) eqn:E; [lia|].
        apply Hsame. done.
Qed.

Lemma inv_step e w w' : inv w -> step e w = Some w' -> inv w'.
Proof.
  destruct e; eauto using inv_frame, inv_vad, inv_trigger, inv_start, inv_resume.
Qed.

Lemma inv_run evs : forall w w', inv w -> run evs w = Some w' -> inv w'.
Proof.
  induction evs as [|e evs IH]; intros w w' Hinv H; simpl in H.
  - by injection H as <-.
  - destruct (step e w) as [w1|] eqn:E; [|done]. eauto using inv_step.
Qed.

(** Every state a session reaches satisfies the invariant. *)
Lemma inv_reachable id evs w : run evs (new_session id) = Some w -> inv w.
Proof. apply inv_run, inv_new_session. Qed.


Lemma framed_new_session id : framed (new_session id).
Proof.
  exists []. unfold new_session, new_processor, buffer.
  pose proof (ba_get_new ∅) as H. destruct (ba_new ∅) as [l h']. done.
Qed.

Lemma framed_settle w i c : framed w -> framed (settle w i c).
Proof.
  intros [fs [E1 E2]]. exists fs. unfold buffer in *.
  destruct (settle_speech_state w i c) as (-> & _ & _ & -> & -> & _). done.
Qed.

Lemma framed_step e w w' : framed w -> step e w = Some w' -> framed w'.
Proof.
  intros Hf H. destruct e as [d|r| |i|i r]; simpl in H.
  - destruct (loop w); try done. injection H as <-.
    unfold process_audio_stream. by destruct (processing_lock (self w)).
  - destruct (loop w) as [|d|]; try done. destruct (startable w); [done|].
    destruct r as [[|]|status body]; try (simpl in H; by injection H as <-).
    destruct (status =? 200) eqn:E200.
    2:{ unfold handle_vad in H. rewrite E200 in H. simpl in H. by injection H as <-. }
    apply Z.eqb_eq in E200 as ->. destruct Hf as [fs [E1 E2]].
    destruct (default false body) eqn:Eb.
    + rewrite (handle_vad_speech _ _ _ _ Eb) in H. injection H as <-.
      exists (fs ++ [d]). unfold buffer in *. simpl.
      rewrite ba_get_extend, E1, E2, concat_app, length_app. simpl.
      rewrite app_nil_r. split; [done | lia].
    + rewrite (handle_vad_silence _ _ _ _ Eb) in H.
      destruct (is_speaking (self w)); injection H as <-; by exists fs.
  - by injection H as <-.
  - destruct (tasks w !! i) as [[| |]|]; try done.
    destruct (processing_lock (self w)); [done|].
    pose proof (trigger_conversation_turn_state (heap w) (self w)) as Est.
    destruct (trigger_conversation_turn (heap w) (self w)) as [[h p] c].
    simpl in Est. injection Est as -> ->. injection H as <-.
    apply framed_settle. exists []. unfold buffer. simpl.
    by rewrite ba_get_clear.
  - destruct (tasks w !! i) as [[|c|]|]; try done.
    destruct (resume c r); [|done]. injection H as <-. by apply framed_settle.
Qed.

Lemma framed_reachable id evs w : run evs (new_session id) = Some w -> framed w.
Proof.
  intros H. pose proof (framed_new_session id) as Hf.
  revert H Hf. generalize (new_session id). induction evs as [|e evs IH];
    intros w0 H Hf; simpl in H.
  - by injection H as <-.
  - destruct (step e w0) as [w1|] eqn:E; [|done]. eauto using framed_step.
Qed.

(** The buffer is made of posted frames. *)
Lemma framed_posted_new_session id : framed_posted (new_session id).
Proof.
  unfold new_session, new_processor, framed_posted, buffer.
  pose proof (ba_get_new ∅) as H. destruct (ba_new ∅) as [l h']. simpl in *.
  split; [|done]. exists []. by rewrite H.
Qed.

Lemma framed_posted_calls h p l t cs cs' w :
  framed_posted w ->
  ba_get h (audio_buffer p) = buffer w ->
  speech_duration_ms p = speech_duration_ms (self w) ->
  (forall d, l = AwaitVad d -> loop w = AwaitVad d) ->
  cs' = calls w ++ cs ->
  framed_posted (mkSession h p l t cs').
Proof.
  intros [(fs & E1 & E2 & Hall) Hl] Hb Hd Hloop ->.
  unfold framed_posted, buffer. simpl. split.
  - exists fs. rewrite Hb, Hd. repeat split; try done.
    eapply Forall_impl; [exact Hall|]. intros d Hin. simpl.
    apply in_or_app. by left.
  - intros d Hd'. apply in_or_app. left. by apply Hl, Hloop.
Qed.

Lemma framed_posted_settle w i c : framed_posted w -> framed_posted (settle w i c).
Proof.
  intros Hf. unfold settle.
  destruct c; simpl; (eapply framed_posted_calls;
    [exact Hf | done | done | done
     | first [reflexivity | symmetry; apply app_nil_r]]).
Qed.

Lemma framed_posted_step e w w' :
  framed_posted w -> step e w = Some w' -> framed_posted w'.
Proof.
  intros Hf H. destruct e as [d|r| |i|i r]; simpl in H.
  - destruct (loop w) eqn:El; try done. injection H as <-.
    unfold process_audio_stream. destruct (processing_lock (self w)); [done|].
    destruct Hf as [(fs & E1 & E2 & Hall) Hl]. split.
    + exists fs. repeat split; try done.
      eapply Forall_impl; [exact Hall|]. intros d0 Hin. simpl.
      apply in_or_app. by left.
    + simpl. intros d0 [= <-]. apply in_or_app. right. by left.
  - destruct (loop w) as [|d|] eqn:El; try done. destruct (startable w); [done|].
    assert (Hsame : forall l, (forall d0, l <> AwaitVad d0) ->
              framed_posted (mkSession (heap w) (self w) l (tasks w) (calls w))).
    { intros l Hl. eapply framed_posted_calls;
        [exact Hf | done | done | | symmetry; apply app_nil_r].
      intros d0 ->. by destruct (Hl d0). }
    destruct r as [[|]|status body].
    + simpl in H. injection H as <-. simpl. rewrite app_nil_r. by apply Hsame.
    + simpl in H. injection H as <-. by apply Hsame.
    + destruct (status =? 200) eqn:E200.
      2:{ unfold handle_vad in H. rewrite E200 in H. simpl in H.
          injection H as <-. simpl. rewrite app_nil_r. by apply Hsame. }
      apply Z.eqb_eq in E200 as ->.
      destruct (default false body) eqn:Eb.
      * rewrite (handle_vad_speech _ _ _ _ Eb) in H. injection H as <-.
        destruct Hf as [(fs & E1 & E2 & Hall) Hl]. split; [|done].
        exists (fs ++ [d]). unfold buffer in *. simpl.
        rewrite ba_get_extend, E1, E2, concat_app, length_app. simpl.
        rewrite app_nil_r. repeat split; [lia|].
        apply Forall_app. split; [done|]. constructor; [|done]. by apply Hl.
      * rewrite (handle_vad_silence _ _ _ _ Eb) in H.
        destruct (is_speaking (self w)); injection H as <-.
        -- destruct Hf as [(fs & E1 & E2 & Hall) Hl]. split; [|done].
           by exists fs.
        -- by apply Hsame.
  - injection H as <-.
    eapply framed_posted_calls;
      [exact Hf | done | done | done | symmetry; apply app_nil_r].
  - destruct (tasks w !! i) as [[| |]|]; try done.
    destruct (processing_lock (self w)); [done|].
    pose proof (trigger_conversation_turn_state (heap w) (self w)) as Est.
    destruct (trigger_conversation_turn (heap w) (self w)) as [[h p] c].
    simpl in Est. injection Est as -> ->. injection H as <-.
    apply framed_posted_settle. destruct Hf as [_ Hl]. split; [|done].
    exists []. unfold buffer. simpl. by rewrite ba_get_clear.
  - destruct (tasks w !! i) as [[|c|]|]; try done.
    destruct (resume c r); [|done]. injection H as <-.
    by apply framed_posted_settle.
Qed.

Lemma framed_posted_reachable id evs w :
  run evs (new_session id) = Some w -> framed_posted w.
Proof.
  intros H. pose proof (framed_posted_new_session id) as Hf.
  revert H Hf. generalize (new_session id). induction evs as [|e evs IH];
    intros w0 H Hf; simpl in H.
  - by injection H as <-.
  - destruct (step e w0) as [w1|] eqn:E; [|done]. eauto using framed_posted_step.
Qed.

Lemma length_concat_le (frames : list bytes) m :
  Forall (fun d => (length d <= m)%nat) frames ->
  (length (concat frames) <= length frames * m)%nat.
Proof.
  induction 1 as [|d frames Hd _ IH]; simpl; [done|].
  rewrite length_app. lia.
Qed.

(** ** Claims on the speech segmenter *)

Lemma start_resets w i w' :
  step (Start i) w = Some w' ->
  is_speaking (self w') = false /\ buffer w' = [] /\
  silence_frames (self w') = 0 /\ speech_duration_ms (self w') = 0.
Proof.
  intros H. simpl in H. destruct (tasks w !! i) as [[| |]|]; try done.
  destruct (processing_lock (self w)); [done|].
  pose proof (trigger_conversation_turn_state (heap w) (self w)) as Est.
  destruct (trigger_conversation_turn (heap w) (self w)) as [[h p] c].
  simpl in Est. injection Est as -> ->. injection H as <-.
  unfold buffer.
  destruct (settle_speech_state
              (mkSession (ba_clear (heap w) (audio_buffer (self w)))
                 (mkProcessor (identity (self w)) (audio_buffer (self w))
                    false 0 0 true) (loop w) (tasks w) (calls w)) i c)
    as (-> & -> & -> & -> & -> & _).
  simpl. by rewrite ba_get_clear.
Qed.

Lemma start_enabled w i :
  tasks w !! i = Some Scheduled -> processing_lock (self w) = false ->
  exists w', step (Start i) w = Some w'.
Proof.
  intros Ht Hl. simpl. rewrite Ht, Hl.
  destruct (trigger_conversation_turn (heap w) (self w)) as [[h p] c]. eauto.
Qed.

Lemma existsb_false_filter {A} (f : A -> bool) (l : list A) :
  existsb f l = false -> filter f l = [].
Proof.
  induction l as [|a l IH]; simpl; [done|]. intros H.
  apply orb_false_iff in H as [Ha Hl]. rewrite filter_cons.
  case_decide as Hd; [by rewrite Ha in Hd | by apply IH].
Qed.

Lemma filter_scheduled_app l :
  filter is_scheduled (l ++ [Scheduled]) = filter is_scheduled l ++ [Scheduled].
Proof. by rewrite filter_app. Qed.

(** While a turn is due, the frame loop can post a frame but its
    classification is not handled before the turn has started. *)
Lemma due_blocks_vad w d r w1 :
  startable w = true -> step (Frame d) w = Some w1 -> step (VadReply r) w1 = None.
Proof.
  intros Hs H. simpl in H. destruct (loop w); try done. injection H as <-.
  unfold process_audio_stream. apply andb_true_iff in Hs as [Hl Hx].
  apply negb_true_iff in Hl. rewrite Hl. simpl.
  unfold startable. simpl. by rewrite Hl, Hx.
Qed.

Lemma some_default {A} (x : option A) (d : A) :
  match x with Some _ => true | None => false end = true ->
  x = Some (default d x).
Proof. by destruct x. Qed.

Lemma run_app evs1 :
  forall evs2 w,
    run (evs1 ++ evs2) w
    = match run evs1 w with Some w1 => run evs2 w1 | None => None end.
Proof.
  induction evs1 as [|e evs1 IH]; intros evs2 w; simpl; [done|].
  destruct (step e w); [apply IH | done].
Qed.

(** A frame taken by an idle-lock session with nothing scheduled is
    posted and classified. *)
Lemma classify w d r h p n :
  loop w = AtFor ->
  processing_lock (self w) = false ->
  existsb is_scheduled (tasks w) = false ->
  handle_vad r d (heap w) (self w) = Normal (h, p, n) ->
  run [Frame d; VadReply r] w
  = Some (mkSession h p AtFor (tasks w ++ replicate n Scheduled)
                    (calls w ++ [CallVAD d])).
Proof.
  intros Hloop Hlock Hsched Hvad.
  cbn [run]. unfold step at 1. rewrite Hloop. unfold process_audio_stream.
  rewrite Hlock. unfold step, startable. cbn [loop self tasks heap calls].
  by rewrite Hlock, Hsched, Hvad.
Qed.

(** Consecutive frames classified as silence in a speaking session,
    below the silence threshold: each one is counted and nothing else
    changes. *)
Lemma silence_run ds b :
  default false b = false ->
  forall w,
    loop w = AtFor ->
    processing_lock (self w) = false ->
    existsb is_scheduled (tasks w) = false ->
    is_speaking (self w) = true ->
    (silence_frames (self w) + Z.of_nat (length ds)) * 30 < 700 ->
    speech_duration_ms (self w) < 20000 ->
    exists w',
      run (feed_frames ds (VadReply (Response 200 b))) w = Some w' /\
      heap w' = heap w /\
      self w' = set_silence_frames (silence_frames (self w) + Z.of_nat (length ds))
                  (self w) /\
      tasks w' = tasks w /\
      loop w' = AtFor.
Proof.
  intros Hb.
  induction ds as [|d ds IH]; intros w Hloop Hlock Hsched Hsp Hsil Hdur.
  - exists w. simpl. rewrite Z.add_0_r. repeat split; try done.
    by destruct (self w).
  - cbn [length] in Hsil. unfold feed_frames. cbn [flat_map].
    change ([Frame d; VadReply (Response 200 b)]
              ++ flat_map (fun d0 => [Frame d0; VadReply (Response 200 b)]) ds)
      with ([Frame d; VadReply (Response 200 b)]
              ++ feed_frames ds (VadReply (Response 200 b))).
    rewrite run_app.
    erewrite classify; [| done | done | done |
      rewrite (handle_vad_silence b) by done; by rewrite Hsp].
    destruct (700 <=? (silence_frames (self w) + 1) * 30) eqn:E1; [lia|].
    destruct (20000 <=? speech_duration_ms (self w)) eqn:E2; [lia|].
    set (w1 := mkSession _ _ _ _ _).
    destruct (IH w1) as (w' & Hrun & Hh & Hs & Ht & Hl);
      try (subst w1; simpl; rewrite ?app_nil_r; done || lia).
    exists w'. split; [done|]. subst w1. simpl in *. rewrite app_nil_r in Ht.
    repeat split; try done. rewrite Hs. unfold set_silence_frames. simpl.
    f_equal. lia.
Qed.

(** C10. In every state a session reaches from its creation, through
    any frames, classifications, turn starts and turn completions, a
    session that is not speaking has an empty speech buffer, a zero
    silence-frame counter and a zero accumulated speech duration. *)
Theorem idle_session_is_clean id evs w :
  run evs (new_session id) = Some w ->
  is_speaking (self w) = false ->
  buffer w = [] /\ silence_frames (self w) = 0 /\ speech_duration_ms (self w) = 0.
Proof. intros H. exact (inv_idle _ (inv_reachable _ _ _ H)). Qed.

Lemma idle_session_is_clean_witness :
  run one_utterance (new_session "alice") = Some after_one_utterance /\
  is_speaking (self after_one_utterance) = false /\
  (buffer after_one_utterance = [] /\
   silence_frames (self after_one_utterance) = 0 /\
   speech_duration_ms (self after_one_utterance) = 0).
Proof.
  assert (Hrun : run one_utterance (new_session "alice") = Some after_one_utterance)
    by (apply some_default; vm_compute; reflexivity).
  assert (Hidle : is_speaking (self after_one_utterance) = false)
    by (vm_compute; reflexivity).
  split; [exact Hrun|]. split; [exact Hidle|].
  exact (idle_session_is_clean "alice" one_utterance after_one_utterance Hrun Hidle).
Defined.

(** One classification as silence in a speaking session: the frame
    that brings the silence counter to less than 700 ms creates no
    turn; the one that brings it to 700 ms or more creates exactly one
    turn task, which is then the only pending turn. *)
Lemma silence_reply_at_threshold id evs w b w' :
  run evs (new_session id) = Some w ->
  is_speaking (self w) = true ->
  default false b = false ->
  step (VadReply (Response 200 b)) w = Some w' ->
  ((silence_frames (self w) + 1) * 30 < 700 ->
     tasks w' = tasks w /\ is_speaking (self w') = true /\ buffer w' = buffer w) /\
  (700 <= (silence_frames (self w) + 1) * 30 ->
     tasks w' = tasks w ++ [Scheduled] /\
     filter is_scheduled (tasks w') = [Scheduled] /\
     in_flight w' = 0%nat /\
     (forall d r w1, step (Frame d) w' = Some w1 -> step (VadReply r) w1 = None) /\
     (exists w'', step (Start (length (tasks w))) w' = Some w'') /\
     (forall i w'', step (Start i) w' = Some w'' ->
        is_speaking (self w'') = false /\ buffer w'' = [] /\
        silence_frames (self w'') = 0 /\ speech_duration_ms (self w'') = 0)).
Proof.
  intros Hrun Hsp Hb Hstep.
  pose proof (inv_reachable _ _ _ Hrun) as Hinv.
  pose proof (inv_step _ _ _ Hinv Hstep) as Hinv'.
  unfold step in Hstep. destruct (loop w) as [|frame_data|] eqn:El; try done.
  destruct (startable w) eqn:Es; [done|].
  destruct (not_startable_not_due _ Hinv Es) as [Hsf Hdur].
  assert (Hlock : processing_lock (self w) = false).
  { destruct (processing_lock (self w)) eqn:E; [|done].
    destruct (inv_locked _ Hinv E) as (_ & _ & Hl).
    rewrite (Hl _ El) in Hsp. done. }
  assert (Hnone : filter is_scheduled (tasks w) = []).
  { apply existsb_false_filter. unfold startable in Es.
    rewrite Hlock in Es. done. }
  rewrite (handle_vad_silence _ _ _ _ Hb), Hsp in Hstep.
  destruct (20000 <=? speech_duration_ms (self w)) eqn:E2; [lia|].
  split; intros Hms.
  - destruct (700 <=? (silence_frames (self w) + 1) * 30) eqn:E1; [lia|].
    injection Hstep as <-. simpl. rewrite app_nil_r. done.
  - destruct (700 <=? (silence_frames (self w) + 1) * 30) eqn:E1; [|lia].
    injection Hstep as <-.
    assert (Hst : startable
              (mkSession (heap w) (set_silence_frames (silence_frames (self w) + 1) (self w))
                 AtFor (tasks w ++ [Scheduled]) (calls w)) = true).
    { unfold startable. simpl. rewrite Hlock, existsb_app. simpl.
      by rewrite orb_true_r. }
    refine (conj _ (conj _ (conj _ (conj _ (conj _ _))))).
    + done.
    + simpl. by rewrite filter_scheduled_app, Hnone.
    + pose proof (inv_lock _ Hinv') as L. simpl in L. by rewrite Hlock in L.
    + intros d r w1 H. by apply (due_blocks_vad _ d r w1 Hst).
    + apply start_enabled; simpl; [|done].
      rewrite lookup_app_r, Nat.sub_diag; [done | lia].
    + intros i w'' H. by apply start_resets in H.
Qed.

(** The 24th silence frame of [before_threshold] is such a frame. *)
Example silence_reply_at_threshold_example :
  exists w w',
    run before_threshold (new_session "alice") = Some w /\
    step silence w = Some w' /\
    700 <= (silence_frames (self w) + 1) * 30 /\
    tasks w' = tasks w ++ [Scheduled].
Proof.
  eexists. eexists. split; [vm_compute; reflexivity|].
  split; [vm_compute; reflexivity|]. split; [vm_compute; discriminate|].
  apply (silence_reply_at_threshold "alice" before_threshold _ (Some false));
    [vm_compute; reflexivity | reflexivity | reflexivity
     | vm_compute; reflexivity | vm_compute; discriminate].
Qed.

(** C3. A frame has just been classified as speech, no turn holds the
    lock and the speech duration is below its cap; the frames that
    follow are all classified as silence.  As long as these consecutive
    silence frames total less than 700 ms (at most 23 of them) no turn
    is created and the session goes on speaking, whatever silence was
    counted before the speech frame.  The frame with which they reach
    700 ms (the 24th) creates exactly one turn task: it is then the
    only pending turn, no turn is in flight, no further classification
    is handled before it has started, it can start at once, and
    starting it clears the speech state: buffer empty, both counters
    zero, not speaking.  The silence frames are counted and never
    buffered. *)
Theorem silence_threshold_triggers_one_turn id evs w b0 w0 ds b :
  run evs (new_session id) = Some w ->
  default false b0 = true ->
  step (VadReply (Response 200 b0)) w = Some w0 ->
  processing_lock (self w0) = false ->
  speech_duration_ms (self w0) < 20000 ->
  default false b = false ->
  (Z.of_nat (length ds) - 1) * 30 < 700 ->
  exists w',
    run (feed_frames ds (VadReply (Response 200 b))) w0 = Some w' /\
    silence_frames (self w') = Z.of_nat (length ds) /\
    buffer w' = buffer w0 /\
    speech_duration_ms (self w') = speech_duration_ms (self w0) /\
    (Z.of_nat (length ds) * 30 < 700 ->
       tasks w' = tasks w0 /\ is_speaking (self w') = true) /\
    (700 <= Z.of_nat (length ds) * 30 ->
       tasks w' = tasks w0 ++ [Scheduled] /\
       filter is_scheduled (tasks w') = [Scheduled] /\
       in_flight w' = 0%nat /\
       (forall d r w1, step (Frame d) w' = Some w1 -> step (VadReply r) w1 = None) /\
       (exists w'', step (Start (length (tasks w0))) w' = Some w'') /\
       (forall i w'', step (Start i) w' = Some w'' ->
          is_speaking (self w'') = false /\ buffer w'' = [] /\
          silence_frames (self w'') = 0 /\ speech_duration_ms (self w'') = 0)).
Proof.
  intros Hrun Hb0 Hstep0 Hlock0 Hdur0 Hb Hlast.
  pose proof (inv_reachable _ _ _ Hrun) as Hinv.
  pose proof (inv_step _ _ _ Hinv Hstep0) as Hinv0.
  assert (Hw0 : loop w0 = AtFor /\ is_speaking (self w0) = true /\
                silence_frames (self w0) = 0 /\
                existsb is_scheduled (tasks w0) = false).
  { unfold step in Hstep0. destruct (loop w) as [|d0|] eqn:El; try done.
    destruct (startable w) eqn:Es; [done|].
    rewrite (handle_vad_speech _ _ _ _ Hb0) in Hstep0.
    injection Hstep0 as <-. simpl in *.
    destruct (20000 <=? speech_duration_ms (self w) + 30) eqn:E; [lia|].
    unfold startable in Es. rewrite Hlock0 in Es. simpl in *.
    by rewrite app_nil_r. }
  destruct Hw0 as (Hloop0 & Hsp0 & Hsf0 & Hsched0).
  pose proof (inv_lock _ Hinv0) as Hfl0. rewrite Hlock0 in Hfl0.
  destruct (Z_lt_ge_dec (Z.of_nat (length ds) * 30) 700) as [Hlt|Hge].
  - destruct (silence_run ds b Hb w0) as (w' & Hr & Hh & Hs & Ht & Hl);
      try done; [lia|].
    exists w'. split; [done|]. unfold buffer. rewrite Hh, Hs, Ht. simpl.
    repeat split; try done; lia.
  - destruct ds as [|d ds _] using rev_ind; [simpl in Hge; lia|].
    rewrite length_app in *. cbn [length] in *.
    destruct (silence_run ds b Hb w0) as (w1 & Hr & Hh & Hs & Ht & Hl);
      try done; [lia|].
    unfold feed_frames. rewrite flat_map_app. cbn [flat_map]. rewrite app_nil_r.
    fold (feed_frames ds (VadReply (Response 200 b))).
    rewrite run_app, Hr.
    assert (Hlock1 : processing_lock (self w1) = false) by by rewrite Hs.
    assert (Hsched1 : existsb is_scheduled (tasks w1) = false) by by rewrite Ht.
    assert (Hsp1 : is_speaking (self w1) = true) by by rewrite Hs.
    erewrite classify; [| done | done | done |
      rewrite (handle_vad_silence b) by done; by rewrite Hsp1].
    assert (Hsf1 : silence_frames (self w1) = Z.of_nat (length ds))
      by (rewrite Hs; simpl; lia).
    assert (Hd1 : speech_duration_ms (self w1) = speech_duration_ms (self w0))
      by by rewrite Hs.
    rewrite Hsf1, Hd1.
    destruct (700 <=? (Z.of_nat (length ds) + 1) * 30) eqn:E1; [|lia].
    destruct (20000 <=? speech_duration_ms (self w0)) eqn:E2; [lia|].
    set (w' := mkSession _ _ _ _ _).
    assert (Hst : startable w' = true).
    { unfold startable. subst w'. simpl. rewrite Hlock1, existsb_app. simpl.
      by rewrite orb_true_r. }
    assert (Htk : tasks w' = tasks w0 ++ [Scheduled]) by (subst w'; simpl; by rewrite Ht).
    exists w'. split; [done|].
    split; [subst w'; simpl; lia|].
    split; [subst w'; unfold buffer; simpl; by rewrite Hh, Hs|].
    split; [subst w'; simpl; by rewrite Hs|].
    split; [intros; lia|]. intros _.
    refine (conj Htk (conj _ (conj _ (conj _ (conj _ _))))).
    + rewrite Htk, filter_scheduled_app.
      by rewrite (existsb_false_filter _ _ Hsched0).
    + unfold in_flight in *. rewrite Htk.
      change [Scheduled] with (replicate 1 Scheduled).
      by rewrite filter_running_scheduled.
    + intros d0 r w2 H. by apply (due_blocks_vad _ d0 r w2 Hst).
    + apply start_enabled; [|subst w'; done].
      rewrite Htk, lookup_app_r, Nat.sub_diag; [done | lia].
    + intros i w'' H. by apply start_resets in H.
Qed.

Lemma silence_threshold_triggers_one_turn_witness :
  exists w w0 w',
    run speech_heard (new_session "alice") = Some w /\
    step speech w = Some w0 /\
    run (feed_frames (replicate 24 frame_z) silence) w0 = Some w' /\
    silence_frames (self w') = Z.of_nat (length (replicate 24 frame_z)) /\
    buffer w' = buffer w0.
Proof.
  pose (w := default (new_session "alice") (run speech_heard (new_session "alice"))).
  pose (w0 := default w (step speech w)).
  assert (Hw : run speech_heard (new_session "alice") = Some w)
    by (apply some_default; vm_compute; reflexivity).
  assert (Hw0 : step speech w = Some w0)
    by (apply some_default; vm_compute; reflexivity).
  destruct (silence_threshold_triggers_one_turn "alice" speech_heard w
              (Some true) w0 (replicate 24 frame_z) (Some false) Hw eq_refl Hw0)
    as (w' & Hr & Hs & Hb & _);
    [vm_compute; reflexivity | vm_compute; reflexivity | reflexivity
     | vm_compute; reflexivity |].
  exists w, w0, w'. split; [exact Hw|]. split; [exact Hw0|].
  split; [exact Hr|]. split; [exact Hs | exact Hb].
Defined.

(** C9. A frame classified as speech adds 30 ms to the accumulated
    speech duration whatever the silence count is; when the sum reaches
    20 000 ms the frame creates one turn task, the lock is free, no
    further classification is handled before that turn has started, the
    turn can start at once and starting it empties the buffer.  The
    duration therefore never exceeds 20 010 ms, and the buffer is made
    of at most 667 frames, one for each 30 ms of the duration and each
    of them a frame that was posted to the VAD service: if no posted
    frame is longer than [m] bytes, the buffer never holds more than
    [667 * m] bytes. *)
Theorem max_duration_triggers_turn id evs w b w' :
  run evs (new_session id) = Some w ->
  default false b = true ->
  step (VadReply (Response 200 b)) w = Some w' ->
  speech_duration_ms (self w') = speech_duration_ms (self w) + 30 /\
  speech_duration_ms (self w') <= 20010 /\
  (exists frames : list bytes,
     buffer w' = concat frames /\
     speech_duration_ms (self w') = 30 * Z.of_nat (length frames) /\
     Forall (fun d => In (CallVAD d) (calls w')) frames /\
     (length frames <= 667)%nat) /\
  (forall m : nat,
     (forall d, In (CallVAD d) (calls w') -> (length d <= m)%nat) ->
     (length (buffer w') <= 667 * m)%nat) /\
  (speech_duration_ms (self w') < 20000 -> tasks w' = tasks w) /\
  (20000 <= speech_duration_ms (self w') ->
     tasks w' = tasks w ++ [Scheduled] /\
     processing_lock (self w') = false /\
     (forall d r w1, step (Frame d) w' = Some w1 -> step (VadReply r) w1 = None) /\
     (exists w'', step (Start (length (tasks w))) w' = Some w'') /\
     (forall i w'', step (Start i) w' = Some w'' ->
        is_speaking (self w'') = false /\ buffer w'' = [] /\
        silence_frames (self w'') = 0 /\ speech_duration_ms (self w'') = 0)).
Proof.
  intros Hrun Hb Hstep.
  pose proof (inv_reachable _ _ _ Hrun) as Hinv.
  pose proof (inv_step _ _ _ Hinv Hstep) as Hinv'.
  pose proof (framed_posted_step _ _ _ (framed_posted_reachable _ _ _ Hrun) Hstep)
    as [(frames & Hbuf & Hlen & Hall) _].
  pose proof (inv_range _ Hinv') as [_ Hr].
  unfold step in Hstep. destruct (loop w) as [|frame_data|] eqn:El; try done.
  destruct (startable w) eqn:Es; [done|].
  rewrite (handle_vad_speech _ _ _ _ Hb) in Hstep.
  refine (conj _ (conj _ (conj _ (conj _ (conj _ _))))).
  - by injection Hstep as <-.
  - lia.
  - exists frames. repeat split; [done | done | done | lia].
  - intros m Hm. rewrite Hbuf.
    assert (Hle : Forall (fun d => (length d <= m)%nat) frames).
    { eapply Forall_impl; [exact Hall|]. intros d Hin. by apply Hm. }
    apply length_concat_le in Hle. nia.
  - intros Hlt. injection Hstep as <-. simpl in *.
    destruct (20000 <=? speech_duration_ms (self w) + 30) eqn:E; [lia|].
    simpl. by rewrite app_nil_r.
  - intros Hge.
    assert (Hst : startable w' = true).
    { apply (inv_due _ Hinv'). right.
      unfold MAX_SPEECH_DURATION_S. lia. }
    injection Hstep as <-. simpl in Hge.
    destruct (20000 <=? speech_duration_ms (self w) + 30) eqn:E; [|lia].
    pose proof Hst as Hst'. apply andb_true_iff in Hst' as [Hl _].
    apply negb_true_iff in Hl. simpl in Hl.
    refine (conj _ (conj _ (conj _ (conj _ _)))).
    + done.
    + done.
    + intros d r w1 H. by apply (due_blocks_vad _ d r w1 Hst).
    + apply start_enabled; simpl; [|done].
      rewrite lookup_app_r, Nat.sub_diag; [done | lia].
    + intros i w'' H. by apply start_resets in H.
Qed.

Lemma max_duration_triggers_turn_witness :
  exists w w',
    run long_speech (new_session "alice") = Some w /\
    step speech w = Some w' /\
    speech_duration_ms (self w') = speech_duration_ms (self w) + 30.
Proof.
  eexists. eexists. split; [vm_compute; reflexivity|].
  split; [vm_compute; reflexivity|].
  apply (max_duration_triggers_turn "alice" long_speech _ (Some true));
    [vm_compute; reflexivity | reflexivity | vm_compute; reflexivity].
Defined.

(** The 666 frames of [long_speech] create no turn; the next one is the
    667th and creates the turn. *)
Example long_speech_triggers_at_667 :
  match run long_speech (new_session "alice") with
  | Some w =>
    tasks w = [] /\ speech_duration_ms (self w) = 19980 /\
    match step speech w with
    | Some w' => tasks w' = [Scheduled] /\ speech_duration_ms (self w') = 20010
    | None => False
    end
  | None => False
  end.
Proof. vm_compute. done. Qed.

(** ** Claims on the turn lock *)

(** C4. In every state a session reaches, at most one turn is inside
    the pipeline, and one is exactly when the lock is held.  While the
    lock is held, a frame the stream yields leaves the session as it is
    (no request to the VAD service, nothing buffered, nothing queued),
    no scheduled trigger gets past the lock, and a further trigger
    issued then neither changes the number of turns in flight nor can
    start. *)
Theorem one_turn_in_flight id evs w :
  run evs (new_session id) = Some w ->
  (in_flight w <= 1)%nat /\
  (processing_lock (self w) = true ->
     in_flight w = 1%nat /\
     (forall d, loop w = AtFor -> step (Frame d) w = Some w) /\
     (forall i, step (Start i) w = None) /\
     (forall w1, step Trigger w = Some w1 ->
        in_flight w1 = 1%nat /\ forall i, step (Start i) w1 = None)).
Proof.
  intros Hrun. pose proof (inv_reachable _ _ _ Hrun) as Hinv.
  pose proof (inv_lock _ Hinv) as L. split.
  - destruct (processing_lock (self w)); lia.
  - intros Hl. rewrite Hl in L.
    assert (Hno : forall w0, processing_lock (self w0) = true ->
                  forall i, step (Start i) w0 = None).
    { intros w0 H0 i. simpl. rewrite H0. by destruct (tasks w0 !! i) as [[| |]|]. }
    refine (conj L (conj _ (conj (Hno w Hl) _))).
    + intros d Hloop. simpl. rewrite Hloop. unfold process_audio_stream.
      by rewrite Hl.
    + intros w1 H. pose proof (inv_step _ _ _ Hinv H) as Hinv1.
      simpl in H. injection H as <-. split.
      * pose proof (inv_lock _ Hinv1) as L1. simpl in L1. by rewrite Hl in L1.
      * by apply Hno.
Qed.

Lemma one_turn_in_flight_witness :
  run one_utterance (new_session "alice") = Some after_one_utterance /\
  processing_lock (self after_one_utterance) = true /\
  in_flight after_one_utterance = 1%nat /\
  step (Frame frame_a) after_one_utterance = Some after_one_utterance.
Proof.
  assert (Hrun : run one_utterance (new_session "alice") = Some after_one_utterance)
    by (apply some_default; vm_compute; reflexivity).
  assert (Hlock : processing_lock (self after_one_utterance) = true)
    by (vm_compute; reflexivity).
  assert (Hloop : loop after_one_utterance = AtFor) by (vm_compute; reflexivity).
  split; [exact Hrun|]. split; [exact Hlock|].
  destruct (one_turn_in_flight "alice" one_utterance after_one_utterance Hrun)
    as (_ & H). destruct (H Hlock) as (Hone & Hframe & _).
  split; [exact Hone | exact (Hframe frame_a Hloop)].
Defined.

(** ** Claims on the turn pipeline *)

Lemma exec_try_except_ret {A} env (c : coro A) a :
  forall n, exec env n (try_except c (Ret a)) = exec env n c.
Proof.
  induction c as [| |f k IH|uid q k IH|t k IH|d k IH|fr k IH]; intros n; simpl;
    try done; by rewrite IH.
Qed.

(** The frames pushed by the playback loop are a prefix of the frames
    it is given: all of them unless [capture_frame] raises. *)
Lemma exec_push_frames env frames :
  forall n, exists k, exec env n (push_frames frames) = map Played (take k frames).
Proof.
  induction frames as [|fr frames IH]; intros n; simpl.
  - by exists 0%nat.
  - destruct (capture env n fr).
    + destruct (IH (S n)) as [k ->]. by exists (S k).
    + by exists 1%nat.
Qed.

Lemma filter_played_map (P : call -> Prop) `{forall c, Decision (P c)} frames :
  (forall fr, ~ P (Played fr)) -> filter P (map Played frames) = [].
Proof.
  intros HP. induction frames as [|fr frames IH]; simpl; [done|].
  rewrite filter_cons. case_decide; [by destruct (HP fr) | done].
Qed.

(** Case analysis on what the collaborators answer along a turn. *)
Ltac turn_cases env :=
  repeat (simpl;
    match goal with
    | |- context [stt env ?f] => destruct (stt env f) as [[|]|? ?]
    | |- context [govt env ?a ?b] => destruct (govt env a b) as [[|]|? ?]
    | |- context [tts env ?t] => destruct (tts env t) as [[|]|? ?]
    | |- context [decode env ?d] => destruct (decode env d) as [?|]
    | |- context [negb (?s =? 200)] => destruct (s =? 200)
    | |- context [read_stream ?l ?a] => destruct (read_stream l a) as [?|[|]]
    | |- context [truthy ?l] => destruct l
    | |- context [Some (?a :: ?l)] => progress simpl
    | |- context [match ?x with [] => _ | _ :: _ => _ end] => destruct x
    end).

(** C1 (the code departs from it).  Whenever a turn runs with a
    non-empty speech buffer, the one request made to the transcription
    service carries the empty byte string: [buffered_audio] is the very
    bytearray that [reset_speech_state] clears before [transcribe_audio]
    reads it. *)
Theorem transcription_receives_cleared_buffer env h p :
  truthy (ba_get h (audio_buffer p)) = true ->
  filter is_stt (run_turn env h p).2 = [CallSTT []].
Proof.
  intros Hb. unfold run_turn, trigger_conversation_turn. simpl. rewrite Hb. simpl.
  unfold turn_stages. rewrite exec_try_except_ret. simpl.
  rewrite ba_get_clear. rewrite filter_cons. simpl.
  turn_cases env.
  all: try done.
  destruct (exec_push_frames env (pcm_frames l0) 0) as [k ->].
  rewrite !filter_cons. simpl. rewrite filter_played_map; [done|].
  intros fr. simpl. tauto.
Qed.

Lemma transcription_receives_cleared_buffer_witness :
  truthy (ba_get speaking_heap (audio_buffer speaking_processor)) = true /\
  filter is_stt (run_turn mock_services speaking_heap speaking_processor).2
  = [CallSTT []].
Proof.
  split; [reflexivity|].
  apply (transcription_receives_cleared_buffer mock_services speaking_heap
           speaking_processor).
  reflexivity.
Defined.

(** The buffered utterance [frame_a ++ frame_a] is not what reaches the
    transcription service. *)
Lemma utterance_is_lost : ~ utterance_reaches_transcription.
Proof.
  intros H.
  specialize (H mock_services speaking_heap speaking_processor eq_refl).
  vm_compute in H. discriminate.
Qed.

(** The same on a whole session: two speech frames, 24 silence frames,
    the turn starts, and the transcription request is empty. *)
Example one_utterance_posts_empty_audio :
  match run one_utterance (new_session "alice") with
  | Some w => filter is_stt (calls w) = [CallSTT []]
  | None => False
  end.
Proof. vm_compute. done. Qed.

(** C8. When the transcription service answers with a text that is
    empty or made of white space only, the turn makes no request to the
    answer service, none to the synthesis service, and pushes no
    playback frame. *)
Theorem blank_transcription_ends_turn env h p :
  (forall file, exists status body,
      stt env file = Response status body /\
      forallb py_isspace (default [] body) = true) ->
  filter is_govt (run_turn env h p).2 = [] /\
  filter is_tts (run_turn env h p).2 = [] /\
  filter is_played (run_turn env h p).2 = [].
Proof.
  intros Hstt. unfold run_turn, trigger_conversation_turn. simpl.
  destruct (truthy (ba_get h (audio_buffer p))); simpl; [|done].
  unfold turn_stages. rewrite exec_try_except_ret. simpl.
  destruct (Hstt (ba_get (ba_clear h (audio_buffer p)) (audio_buffer p)))
    as (status & body & -> & Hws).
  apply py_strip_nil_iff in Hws. rewrite Hws.
  destruct (status =? 200); simpl; rewrite !filter_cons; done.
Qed.

Lemma blank_transcription_ends_turn_witness :
  filter is_govt (run_turn blank_services speaking_heap speaking_processor).2 = [] /\
  filter is_tts (run_turn blank_services speaking_heap speaking_processor).2 = [] /\
  filter is_played (run_turn blank_services speaking_heap speaking_processor).2 = [].
Proof.
  apply (blank_transcription_ends_turn blank_services).
  intros file. exists 200, (Some (u "  ")). split; reflexivity.
Defined.

(** ** A turn inside a session *)

Lemma run_resume_cons w i c r c' evs :
  tasks w !! i = Some (Running c) -> resume c r = Some c' ->
  run (Resume i r :: evs) w = run evs (settle w i c').
Proof. intros Ht Hr. simpl. by rewrite Ht, Hr. Qed.

(** From the moment task [i] has run up to [c], the replies of [env]
    take it to its end: the lock is released, the speech state is not
    touched, and the requests logged are those of [exec]. *)
Lemma drive_settle env i (c : coro unit) :
  forall w t n,
    tasks w !! i = Some t ->
    exists w',
      run (map (Resume i) (replies env n c)) (settle w i c) = Some w' /\
      heap w' = heap w /\
      self w' = set_processing_lock false (self w) /\
      loop w' = loop w /\
      tasks w' = <[i := Finished]> (tasks w) /\
      calls w' = calls w ++ exec env n c.
Proof.
  induction c as [| |f k IH|uid q k IH|tx k IH|d k IH|fr k IH]; intros w t n Ht;
    try (eexists; simpl; rewrite app_nil_r; done).
  all: pose proof (lookup_lt_Some _ _ _ Ht) as Hlt.
  all: match goal with
       | |- context [settle ?w0 ?j ?c0] =>
         set (w1 := settle w0 j c0);
         assert (Ht1 : tasks w1 !! j = Some (Running c0))
           by (subst w1; simpl; by apply list_lookup_insert_eq)
       end.
  all: simpl replies; simpl map;
    (erewrite run_resume_cons; [| exact Ht1 | reflexivity]);
    match goal with
    | |- context [replies ?e ?m (?kk ?r)] =>
      destruct (IH r w1 _ m Ht1) as (w' & Hr & Hh & Hs & Hl & Htk & Hc)
    end;
    exists w'; subst w1; simpl in *;
    rewrite list_insert_insert_eq in Htk;
    rewrite <- ?app_assoc, ?app_nil_r in Hc; done.
Qed.

(** A turn that gets the lock and runs with nothing else handled
    meanwhile always comes to its end, whatever the collaborators do at
    each stage.  At its end the task is finished, the lock is free and
    the speech state is the reset one; the requests the turn made are
    those of [run_turn]. *)
Lemma turn_alone env w i :
  tasks w !! i = Some Scheduled ->
  processing_lock (self w) = false ->
  exists w',
    run (Start i
           :: map (Resume i)
                (replies env 0 (trigger_conversation_turn (heap w) (self w)).2))
        w = Some w' /\
    tasks w' !! i = Some Finished /\
    processing_lock (self w') = false /\
    is_speaking (self w') = false /\
    buffer w' = [] /\
    silence_frames (self w') = 0 /\
    speech_duration_ms (self w') = 0 /\
    (heap w', self w', drop (length (calls w)) (calls w'))
      = run_turn env (heap w) (self w).
Proof.
  intros Ht Hl. unfold run_turn.
  pose proof (trigger_conversation_turn_state (heap w) (self w)) as Est.
  destruct (trigger_conversation_turn (heap w) (self w)) as [[h p] c] eqn:E.
  simpl in Est. injection Est as -> ->.
  set (w0 := mkSession (ba_clear (heap w) (audio_buffer (self w)))
               (mkProcessor (identity (self w)) (audio_buffer (self w))
                  false 0 0 true) (loop w) (tasks w) (calls w)).
  destruct (drive_settle env i c w0 Scheduled 0%nat Ht)
    as (w' & Hr & Hh & Hs & Hlo & Htk & Hc).
  exists w'. split.
  { change (run (Start i :: ?evs) w) with
      (match step (Start i) w with Some w1 => run evs w1 | None => None end).
    unfold step. rewrite Ht, Hl, E. exact Hr. }
  unfold buffer. rewrite Hh, Hs, Htk, Hc. subst w0. simpl.
  rewrite ba_get_clear, drop_app_length.
  pose proof (lookup_lt_Some _ _ _ Ht) as Hlt.
  rewrite list_lookup_insert_eq by done. done.
Qed.



(** *** A turn under any schedule *)

Lemma finished_stable_step e w w' i :
  step e w = Some w' -> tasks w !! i = Some Finished -> tasks w' !! i = Some Finished.
Proof.
  intros H Hi. destruct e as [d|r| |j|j r]; simpl in H.
  - destruct (loop w); try done. injection H as <-.
    unfold process_audio_stream. by destruct (processing_lock (self w)).
  - destruct (loop w) as [|d|]; try done. destruct (startable w); [done|].
    destruct (handle_vad r d (heap w) (self w)) as [[[h p] n]|ex];
      injection H as <-; simpl; [|done].
    by apply lookup_app_l_Some.
  - injection H as <-. simpl. by apply lookup_app_l_Some.
  - destruct (tasks w !! j) as [[| |]|] eqn:Ej; try done.
    destruct (processing_lock (self w)); [done|].
    destruct (trigger_conversation_turn (heap w) (self w)) as [[h p] c].
    injection H as <-.
    assert (Hne : j <> i) by (intros ->; congruence).
    unfold settle. destruct c; simpl; by rewrite list_lookup_insert_ne.
  - destruct (tasks w !! j) as [[|c|]|] eqn:Ej; try done.
    destruct (resume c r) as [c'|]; [|done]. injection H as <-.
    assert (Hne : j <> i) by (intros ->; congruence).
    unfold settle. destruct c'; simpl; by rewrite list_lookup_insert_ne.
Qed.

Lemma finished_stable_run evs i :
  forall w w',
    run evs w = Some w' -> tasks w !! i = Some Finished ->
    tasks w' !! i = Some Finished.
Proof.
  induction evs as [|e evs IH]; intros w w' H Hi; simpl in H.
  - by injection H as <-.
  - destruct (step e w) as [w1|] eqn:E; [|done].
    eauto using finished_stable_step.
Qed.

(** The lock has one holder. *)
Lemma running_unique w i j c c' :
  inv w -> tasks w !! i = Some (Running c) -> tasks w !! j = Some (Running c') ->
  i = j.
Proof.
  intros Hinv Hi Hj. destruct (decide (i = j)) as [|Hne]; [done|]. exfalso.
  pose proof (inv_lock _ Hinv) as L.
  pose proof (filter_running_insert _ i _ Finished Hi) as E. simpl in E.
  assert (Hj' : (<[i := Finished]> (tasks w)) !! j = Some (Running c'))
    by by rewrite list_lookup_insert_ne.
  pose proof (filter_running_insert _ j _ Finished Hj') as E'. simpl in E'.
  unfold in_flight in L. destruct (processing_lock (self w)); lia.
Qed.

Lemma same_speech_state l0 w w' :
  heap w' = heap w ->
  is_speaking (self w') = is_speaking (self w) ->
  silence_frames (self w') = silence_frames (self w) ->
  speech_duration_ms (self w') = speech_duration_ms (self w) ->
  audio_buffer (self w') = audio_buffer (self w) ->
  (is_idle w -> is_idle w') /\
  (holds_pending_frame l0 w -> holds_pending_frame l0 w').
Proof.
  intros Hh Hs Hf Hd Hb.
  unfold is_idle, holds_pending_frame, buffer. rewrite Hh, Hs, Hf, Hd, Hb.
  done.
Qed.

(** One step while the turn of task [i] holds the lock: the turn goes
    on, or it ends and the lock is released. *)
Lemma during_turn_step l0 i c e w w' :
  inv w ->
  tasks w !! i = Some (Running c) ->
  during_turn l0 w ->
  step e w = Some w' ->
  (exists c', tasks w' !! i = Some (Running c') /\ during_turn l0 w') \/
  (tasks w' !! i = Some Finished /\ processing_lock (self w') = false /\
   (is_idle w' \/ holds_pending_frame l0 w')).
Proof.
  intros Hinv Hi Hd H. pose proof Hd as [Hlock Hst].
  destruct e as [d|r| |j|j r]; simpl in H.
  - destruct (loop w) eqn:El; try done. injection H as <-.
    unfold process_audio_stream. rewrite Hlock. left. by exists c.
  - destruct (loop w) as [|d|] eqn:El; try done.
    destruct (startable w); [done|].
    destruct Hst as [[Hidle Hl0]|[_ Hno]]; [|by destruct (Hno d)].
    assert (El0 : l0 = AwaitVad d).
    { destruct Hl0 as [<-|Hno]; [done | by destruct (Hno d)]. }
    assert (Hsame : forall l, (forall d0, l <> AwaitVad d0) ->
              (exists c', tasks w !! i = Some (Running c') /\
                 during_turn l0 (mkSession (heap w) (self w) l (tasks w) (calls w))) \/
              (tasks w !! i = Some Finished /\ processing_lock (self w) = false /\
                 (is_idle (mkSession (heap w) (self w) l (tasks w) (calls w)) \/
                  holds_pending_frame l0
                    (mkSession (heap w) (self w) l (tasks w) (calls w))))).
    { intros l Hl. left. exists c. split; [done|]. split; [done|]. left.
      split; [done | by right]. }
    destruct Hidle as (Hsp & Hbuf & Hsf & Hdur).
    destruct r as [[|]|status body].
    + simpl in H. injection H as <-. simpl. rewrite app_nil_r. by apply Hsame.
    + simpl in H. injection H as <-. by apply Hsame.
    + destruct (status =? 200) eqn:E200.
      2:{ unfold handle_vad in H. rewrite E200 in H. simpl in H.
          injection H as <-. simpl. rewrite app_nil_r. by apply Hsame. }
      apply Z.eqb_eq in E200 as ->.
      destruct (default false body) eqn:Eb.
      * rewrite (handle_vad_speech _ _ _ _ Eb) in H. rewrite Hdur in H.
        simpl in H. injection H as <-. simpl. rewrite app_nil_r.
        left. exists c. split; [done|]. split; [done|]. right.
        split; [|done]. exists d. unfold buffer in *. simpl.
        rewrite ba_get_extend, Hbuf. done.
      * rewrite (handle_vad_silence _ _ _ _ Eb), Hsp, Hdur in H. simpl in H.
        injection H as <-. simpl. rewrite app_nil_r. by apply Hsame.
  - injection H as <-. simpl. left. exists c.
    split; [by apply lookup_app_l_Some | done].
  - destruct (tasks w !! j) as [[| |]|]; try done. by rewrite Hlock in H.
  - destruct (tasks w !! j) as [[|cj|]|] eqn:Ej; try done.
    destruct (resume cj r) as [c'|]; [|done]. injection H as <-.
    assert (j = i) as -> by by eapply running_unique.
    pose proof (lookup_lt_Some _ _ _ Hi) as Hlt.
    assert (Hend : tasks (mkSession (heap w) (set_processing_lock false (self w))
                       (loop w) (<[i := Finished]> (tasks w)) (calls w)) !! i
                   = Some Finished /\
                   (is_idle (mkSession (heap w) (set_processing_lock false (self w))
                       (loop w) (<[i := Finished]> (tasks w)) (calls w)) \/
                    holds_pending_frame l0
                      (mkSession (heap w) (set_processing_lock false (self w))
                         (loop w) (<[i := Finished]> (tasks w)) (calls w)))).
    { split; [simpl; by apply list_lookup_insert_eq|].
      destruct Hst as [[Hidle _]|[Hp _]]; [left | right]; done. }
    assert (Hgo : forall c1,
              tasks (mkSession (heap w) (self w) (loop w)
                       (<[i := Running c1]> (tasks w)) (calls w ++ request_of c1)) !! i
              = Some (Running c1) /\
              during_turn l0
                (mkSession (heap w) (self w) (loop w)
                   (<[i := Running c1]> (tasks w)) (calls w ++ request_of c1))).
    { intros c1. split; [simpl; by apply list_lookup_insert_eq|]. done. }
    unfold settle.
    destruct c'; try (right; destruct Hend; done); left; eexists; apply Hgo.
Qed.

Lemma during_turn_run l0 i evs :
  forall w c w',
    inv w ->
    tasks w !! i = Some (Running c) ->
    during_turn l0 w ->
    run evs w = Some w' ->
    tasks w' !! i <> Some Finished ->
    inv w' /\ exists c', tasks w' !! i = Some (Running c') /\ during_turn l0 w'.
Proof.
  induction evs as [|e evs IH]; intros w c w' Hinv Hi Hd H Hnf; simpl in H.
  - injection H as <-. eauto.
  - destruct (step e w) as [w1|] eqn:E; [|done].
    pose proof (inv_step _ _ _ Hinv E) as Hinv1.
    destruct (during_turn_step _ _ _ _ _ _ Hinv Hi Hd E)
      as [(c1 & Hi1 & Hd1)|(Hfin & _)].
    + by apply (IH w1 c1).
    + destruct Hnf. by apply (finished_stable_run evs i w1).
Qed.

(** The turn takes the lock: the speech state is reset, and the turn
    either ends at once or is inside the pipeline. *)
Lemma start_during_turn w i w1 :
  step (Start i) w = Some w1 ->
  tasks w !! i = Some Scheduled /\ processing_lock (self w) = false /\
  is_idle w1 /\
  ((tasks w1 !! i = Some Finished /\ processing_lock (self w1) = false) \/
   (exists c, tasks w1 !! i = Some (Running c) /\ during_turn (loop w) w1)).
Proof.
  intros H. pose proof (start_resets _ _ _ H) as Hidle. simpl in H.
  destruct (tasks w !! i) as [[| |]|] eqn:Et; try done.
  destruct (processing_lock (self w)) eqn:El; [done|].
  pose proof (trigger_conversation_turn_state (heap w) (self w)) as Est.
  destruct (trigger_conversation_turn (heap w) (self w)) as [[h p] c].
  simpl in Est. injection Est as -> ->. injection H as <-.
  pose proof (lookup_lt_Some _ _ _ Et) as Hlt.
  split; [done|]. split; [done|]. split; [done|].
  revert Hidle. unfold settle, during_turn, is_idle, buffer.
  destruct c; simpl; intros Hidle;
    try (left; split; [by apply list_lookup_insert_eq | done]);
    right; eexists; (split; [by apply list_lookup_insert_eq|]);
    (split; [done|]); left; (split; [done | by left]).
Qed.


(** The state in which that turn ends: the lock is free, and the frame
    classified during the turn is the start of a new utterance. *)
Example racing_turn_end :
  tasks racing_session_end !! 0%nat = Some Finished /\
  processing_lock (self racing_session_end) = false /\
  is_speaking (self racing_session_end) = true /\
  buffer racing_session_end = frame_a /\
  silence_frames (self racing_session_end) = 0 /\
  speech_duration_ms (self racing_session_end) = 30.
Proof. vm_compute. done. Qed.



(** ** Error events of the answer service *)

Lemma read_stream_without_errors lines :
  forall acc,
    read_stream (filter (fun l => is_error_event l = false) lines) acc
    = read_stream lines acc.
Proof.
  induction lines as [|l lines IH]; intros acc; [done|].
  rewrite filter_cons. destruct l as [| |type content|e]; cbn [is_error_event].
  - rewrite decide_True by done. cbn [read_stream]. apply IH.
  - rewrite decide_True by done. cbn [read_stream]. apply IH.
  - cbn [read_stream]. destruct (bool_decide (type = Some (u "error"))) eqn:E.
    + rewrite decide_False by done. apply bool_decide_eq_true in E as ->.
      rewrite bool_decide_false; [apply IH|].
      intros H. vm_compute in H. discriminate.
    + rewrite decide_True by done. cbn [read_stream].
      destruct (bool_decide (type = Some (u "answer_chunk"))); apply IH.
  - rewrite decide_True by done. done.
Qed.

Lemma exec_push_frames_without_errors env frames :
  forall n,
    exec (without_error_events env) n (push_frames frames)
    = exec env n (push_frames frames).
Proof.
  induction frames as [|fr frames IH]; intros n; simpl; [done|].
  destruct (capture env n fr); [by rewrite IH | done].
Qed.

(** C5 as stated fails: on [error_stream] the synthesis service is
    called and frames are played. *)
Lemma error_event_does_not_abort : ~ error_event_aborts_turn.
Proof.
  intros H.
  destruct (H error_services speaking_heap speaking_processor error_stream)
    as [Ht _]; [done | reflexivity |].
  vm_compute in Ht. discriminate.
Qed.

Lemma run_turn_without_error_events env h p :
  run_turn (without_error_events env) h p = run_turn env h p.
Proof.
  unfold run_turn, trigger_conversation_turn. simpl.
  destruct (truthy (ba_get h (audio_buffer p))); simpl; [|done].
  f_equal. unfold turn_stages. rewrite !exec_try_except_ret. simpl.
  f_equal.
  destruct (stt env _) as [[|]|status body]; simpl; try done.
  destruct (status =? 200); simpl; [|done].
  destruct (py_strip (default [] body)) as [|c text]; simpl; [done|].
  f_equal.
  destruct (govt env _ _) as [[|]|status' lines]; simpl; try done.
  destruct (status' =? 200); simpl; [|done].
  rewrite read_stream_without_errors.
  destruct (read_stream lines []) as [[|c' resp]|[|]]; simpl; try done.
  f_equal.
  destruct (tts env _) as [[|]|status'' audio]; simpl; try done.
  destruct (status'' =? 200); simpl; [|done].
  destruct audio as [|b audio]; simpl; [done|].
  destruct (decode env _) as [pcm|]; simpl; [|done].
  apply exec_push_frames_without_errors.
Qed.

(** The stream as the loop of [query_govt_api] reads it: the contents
    of its [answer_chunk] events, when no line raises. *)
Lemma read_stream_chunks lines :
  forallb (fun l => negb (is_broken l)) lines = true ->
  forall acc, read_stream lines acc = Normal (acc ++ concat (map chunk_of lines)).
Proof.
  induction lines as [|l lines IH]; intros Hok acc.
  - simpl. by rewrite app_nil_r.
  - cbn [forallb] in Hok. apply andb_true_iff in Hok as [Hl Hok].
    specialize (IH Hok).
    destruct l as [| |type content|e]; cbn [read_stream map concat chunk_of];
      try (rewrite IH; done).
    + destruct (bool_decide (type = Some (u "answer_chunk")));
        rewrite IH; [by rewrite app_assoc | done].
    + done.
Qed.

(** C5, amended.  Error events of the answer stream are skipped like
    every event whose type is not [answer_chunk]: a turn makes the same
    requests and plays the same frames, and leaves the same state, as on
    the same stream with its error events removed.  When the turn
    reaches the answer service and the service answers 200 with a
    stream none of whose lines raises, error events or not, synthesis
    is requested exactly when the concatenated [answer_chunk] content
    is not empty, and with that content; when it is empty there is no
    synthesis and no playback.  When the call to the answer service
    fails there is none either. *)
Theorem error_events_are_skipped env h p :
  run_turn (without_error_events env) h p = run_turn env h p /\
  (forall text lines,
     truthy (ba_get h (audio_buffer p)) = true ->
     (forall file, stt env file = Response 200 (Some text)) ->
     truthy (py_strip text) = true ->
     govt env (identity p) (py_strip text) = Response 200 lines ->
     forallb (fun l => negb (is_broken l)) lines = true ->
     if truthy (concat (map chunk_of lines))
     then filter is_tts (run_turn env h p).2
          = [CallTTS (concat (map chunk_of lines))]
     else filter is_tts (run_turn env h p).2 = [] /\
          filter is_played (run_turn env h p).2 = []) /\
  ((forall uid q, failed (govt env uid q) = true) ->
   filter is_tts (run_turn env h p).2 = [] /\
   filter is_played (run_turn env h p).2 = []).
Proof.
  split; [apply run_turn_without_error_events|]. split.
  - intros text lines Hb Hstt Ht Hg Hok.
    unfold run_turn, trigger_conversation_turn. simpl. rewrite Hb. simpl.
    unfold turn_stages. rewrite exec_try_except_ret. simpl.
    rewrite Hstt. simpl.
    destruct (py_strip text) as [|c t] eqn:Et; [done|]. simpl.
    rewrite Hg. simpl.
    rewrite (read_stream_chunks lines Hok []). simpl.
    destruct (concat (map chunk_of lines)) as [|c' t'] eqn:Ec; simpl.
    + rewrite !filter_cons. done.
    + rewrite !filter_cons. simpl. f_equal.
      destruct (tts env (c' :: t')) as [[|]|status audio]; simpl; try done.
      destruct (status =? 200); simpl; [|done].
      destruct audio as [|b audio]; simpl; [done|].
      destruct (decode env (b :: audio)) as [pcm|]; simpl; [|done].
      destruct (exec_push_frames env (pcm_frames pcm) 0) as [k ->].
      apply filter_played_map. intros fr. simpl. tauto.
  - intros Hf. unfold run_turn, trigger_conversation_turn. simpl.
    destruct (truthy (ba_get h (audio_buffer p))); simpl; [|done].
    unfold turn_stages. rewrite exec_try_except_ret. simpl. rewrite !filter_cons. simpl.
    destruct (stt env _) as [[|]|status body]; simpl; try done.
    destruct (status =? 200); simpl; [|done].
    destruct (py_strip (default [] body)) as [|c text]; simpl; [done|].
    specialize (Hf (identity p) (c :: text)). rewrite !filter_cons. simpl.
    destruct (govt env _ _) as [[|]|status' lines]; simpl in *; try done.
    by rewrite Hf.
Qed.

Lemma error_events_are_skipped_witness :
  if truthy (concat (map chunk_of error_stream))
  then filter is_tts (run_turn error_services speaking_heap speaking_processor).2
       = [CallTTS (concat (map chunk_of error_stream))]
  else filter is_tts (run_turn error_services speaking_heap speaking_processor).2 = [] /\
       filter is_played (run_turn error_services speaking_heap speaking_processor).2 = [].
Proof.
  apply (proj1 (proj2 (error_events_are_skipped error_services speaking_heap
                         speaking_processor)) (u "hello") error_stream);
    reflexivity.
Defined.

(** On [error_stream] the turn goes on to synthesis and playback, with
    the text of the answer chunk. *)
Example error_stream_turn :
  (run_turn error_services speaking_heap speaking_processor).2
  = [CallSTT []; CallGovt "alice" (u "hello"); CallTTS (u "hi");
     Played (frame_samples [1; 2; 3])].
Proof. vm_compute. reflexivity. Qed.

(** ** The session manager *)

(** C6 as stated fails: a second subscription of an audio track for a
    tracked participant starts a second frame loop on the session. *)
Lemma second_arrival_starts_a_loop : ~ second_arrival_is_noop.
Proof.
  intros H.
  specialize (H (on_track_subscribed KIND_AUDIO "alice" empty_room) "alice").
  assert (Hs : is_Some (processors (on_track_subscribed KIND_AUDIO "alice" empty_room)
                        !! "alice")).
  { eexists. vm_compute. reflexivity. }
  apply H in Hs. apply (f_equal frame_loops) in Hs. vm_compute in Hs.
  discriminate.
Qed.

(** C6, amended.  For a participant whose session is already tracked
    (and who is not the bot), a further audio-track subscription creates
    no session state: the store and the processors are unchanged.  It
    does start one more frame loop on the existing session. *)
Theorem second_arrival_keeps_session r participant p :
  processors r !! participant = Some p ->
  participant <> BOT_IDENTITY ->
  room_heap (on_track_subscribed KIND_AUDIO participant r) = room_heap r /\
  processors (on_track_subscribed KIND_AUDIO participant r) = processors r /\
  frame_loops (on_track_subscribed KIND_AUDIO participant r)
    = frame_loops r ++ [participant] /\
  loops_of participant (on_track_subscribed KIND_AUDIO participant r)
    = S (loops_of participant r).
Proof.
  intros Hp Hbot. unfold on_track_subscribed, loops_of.
  rewrite bool_decide_true by done. rewrite Hp. simpl.
  repeat split. rewrite filter_app, length_app, filter_cons.
  case_decide; [simpl; lia | done].
Qed.

Lemma second_arrival_keeps_session_witness :
  loops_of "alice"
    (on_track_subscribed KIND_AUDIO "alice"
       (on_track_subscribed KIND_AUDIO "alice" empty_room))
  = S (loops_of "alice" (on_track_subscribed KIND_AUDIO "alice" empty_room)).
Proof.
  eapply (second_arrival_keeps_session
            (on_track_subscribed KIND_AUDIO "alice" empty_room) "alice").
  - vm_compute. reflexivity.
  - discriminate.
Defined.

(** ** Playback on the shared source *)

Lemma frames_of_app i j tr frames :
  frames_of i (tr ++ map (fun fr => (j, fr)) frames)
  = frames_of i tr ++ (if decide (j = i) then frames else []).
Proof.
  unfold frames_of. rewrite filter_app, map_app. f_equal.
  induction frames as [|fr frames IH]; simpl.
  - by destruct (decide (j = i)).
  - rewrite filter_cons. simpl. destruct (decide (j = i)); simpl; by rewrite IH.
Qed.

Lemma playback_ok_start env audios : playback_ok env audios (start_playback audios).
Proof.
  intros i audio pl Ha Hp. unfold start_playback in Hp. simpl in Hp.
  rewrite list_lookup_fmap, Ha in Hp. injection Hp as <-. by left.
Qed.

Lemma playback_ok_step env audios j s s' :
  playback_ok env audios s -> resume_player env j s = Some s' ->
  playback_ok env audios s'.
Proof.
  intros Hok H. unfold resume_player in H.
  destruct (players s !! j) as [plj|] eqn:Ej; [|done].
  destruct (advance env (pushed_frames plj) (playing plj)) as [[c n]|] eqn:Ea;
    [|done].
  injection H as <-. intros i audio pl Ha Hp. simpl in *.
  rewrite frames_of_app. destruct (decide (j = i)) as [->|Hne].
  2:{ rewrite list_lookup_insert_ne in Hp by done. rewrite app_nil_r. eauto. }
  rewrite list_lookup_insert_eq in Hp by (by eapply lookup_lt_Some).
  injection Hp as <-. simpl.
  destruct (Hok i audio plj Ha Ej) as [[Hc Hm]|[(before & fr & rest & Hpay & Hc & Hm)|[Hc Hm]]];
    rewrite Hc in Ea; [rewrite Hm | rewrite Hm |].
  - simpl in Ea. injection Ea as <- <-. unfold player_ok, payload_frames.
    destruct (decode env audio) as [pcm|]; simpl.
    + destruct (pcm_frames pcm) as [|fr rest] eqn:Ef; simpl.
      * right. right. done.
      * right. left. exists [], fr, rest. done.
    + right. right. done.
  - simpl in Ea. injection Ea as <- <-. unfold player_ok. rewrite Hpay.
    destruct (capture env (pushed_frames plj) fr); simpl.
    + destruct rest as [|fr' rest']; simpl.
      * right. right. rewrite app_nil_r. done.
      * right. left. exists (before ++ [fr]), fr', rest'.
        rewrite <- app_assoc. done.
    + right. right. rewrite app_nil_r. split; [done|].
      by exists rest; rewrite <- app_assoc.
  - done.
Qed.

Lemma playback_ok_run env audios schedule :
  forall s s',
    playback_ok env audios s -> play_run env schedule s = Some s' ->
    playback_ok env audios s'.
Proof.
  induction schedule as [|j schedule IH]; intros s s' Hok H; simpl in H.
  - by injection H as <-.
  - destruct (resume_player env j s) as [s1|] eqn:E; [|done].
    eauto using playback_ok_step.
Qed.

(** C2 as stated fails: two players that alternate put their frames on
    the track in alternation. *)
Lemma playback_interleaves : ~ playback_is_serialized.
Proof.
  intros H.
  assert (Hrun : exists s,
             play_run two_frame_services [0; 1; 0; 1]%nat
               (start_playback [[Byte.x01]; [Byte.x02]]) = Some s /\
             map fst (track s) = [0; 1; 0; 1]%nat).
  { eexists. split; vm_compute; reflexivity. }
  destruct Hrun as (s & Hs & Howners).
  specialize (H _ _ _ _ Hs). unfold serialized in H. rewrite Howners in H.
  simpl in H. apply NoDup_cons in H as [Hn _]. apply Hn. set_solver.
Qed.

(** C2, amended.  Whatever the order in which the event loop resumes
    the players, the frames of each player appear on the shared track in
    the order of its payload, without gap or repetition: they are a
    prefix of the payload's frames.  Frames of different players may
    alternate. *)
Theorem playback_keeps_payload_order env audios schedule s i audio :
  play_run env schedule (start_playback audios) = Some s ->
  audios !! i = Some audio ->
  frames_of i (track s) `prefix_of` payload_frames env audio.
Proof.
  intros Hrun Ha.
  pose proof (playback_ok_run _ _ _ _ _ (playback_ok_start env audios) Hrun) as Hok.
  assert (Hlen : forall schedule s0 s1,
             play_run env schedule s0 = Some s1 ->
             length (players s1) = length (players s0)).
  { clear. induction schedule as [|j schedule IH]; intros s0 s1 H; simpl in H.
    - by injection H as <-.
    - unfold resume_player in H.
      destruct (players s0 !! j) as [pl|]; [|done].
      destruct (advance env (pushed_frames pl) (playing pl)) as [[c n]|]; [|done].
      rewrite (IH _ _ H). simpl. by rewrite length_insert. }
  apply Hlen in Hrun. unfold start_playback in Hrun. simpl in Hrun.
  rewrite length_map in Hrun.
  destruct (lookup_lt_is_Some_2 (players s) i) as [pl Hpl].
  { rewrite Hrun. by eapply lookup_lt_Some. }
  destruct (Hok i audio pl Ha Hpl) as [[_ ->]|[(before & fr & rest & -> & _ & ->)|[_ Hm]]].
  - apply prefix_nil.
  - exists rest. by rewrite <- app_assoc.
  - done.
Qed.

Lemma playback_keeps_payload_order_witness :
  exists s,
    play_run two_frame_services [0; 1; 0; 1]%nat
      (start_playback [[Byte.x01]; [Byte.x02]]) = Some s /\
    frames_of 0 (track s) `prefix_of` payload_frames two_frame_services [Byte.x01].
Proof.
  eexists. split; [vm_compute; reflexivity|].
  apply (playback_keeps_payload_order two_frame_services
           [[Byte.x01]; [Byte.x02]] [0; 1; 0; 1]%nat _ 0%nat [Byte.x01]);
    [vm_compute; reflexivity | reflexivity].
Defined.

(** * Further properties of the code *)

(** ** Framing of the playback payload *)

Lemma frame_size_pos : (0 < frame_size)%nat.
Proof. unfold frame_size. lia. Qed.

Lemma astype_int16_zero : astype_int16 0 = 0.
Proof. reflexivity. Qed.

Lemma map_replicate {A B} (f : A -> B) n x :
  map f (replicate n x) = replicate n (f x).
Proof. induction n as [|n IH]; simpl; [done | by rewrite IH]. Qed.

Lemma length_frame_samples chunk :
  (length chunk <= frame_size)%nat -> length (frame_samples chunk) = frame_size.
Proof.
  intros Hle. unfold frame_samples, pad_frame. rewrite length_map.
  destruct (length chunk <? frame_size)%nat eqn:E.
  - rewrite length_app, length_replicate. lia.
  - apply Nat.ltb_ge in E. lia.
Qed.

Lemma frame_samples_spec chunk :
  (length chunk <= frame_size)%nat ->
  frame_samples chunk
  = map astype_int16 chunk ++ replicate (frame_size - length chunk) 0.
Proof.
  intros Hle. unfold frame_samples, pad_frame.
  destruct (length chunk <? frame_size)%nat eqn:E.
  - by rewrite map_app, map_replicate, astype_int16_zero.
  - apply Nat.ltb_ge in E. replace (frame_size - length chunk)%nat with 0%nat by lia.
    simpl. by rewrite app_nil_r.
Qed.

Lemma split_frames_spec fuel :
  forall pcm_data,
    (length pcm_data <= fuel)%nat ->
    Forall (fun fr => length fr = frame_size) (split_frames fuel pcm_data) /\
    exists pad,
      (pad < frame_size)%nat /\
      concat (split_frames fuel pcm_data)
      = map astype_int16 pcm_data ++ replicate pad 0 /\
      (frame_size * length (split_frames fuel pcm_data)
       = length pcm_data + pad)%nat.
Proof.
  pose proof frame_size_pos as Hpos.
  induction fuel as [|fuel IH]; intros pcm_data Hlen.
  - destruct pcm_data; [|simpl in Hlen; lia]. split; [constructor|].
    exists 0%nat. simpl. repeat split; lia.
  - destruct pcm_data as [|x pcm_data]; cbn [split_frames].
    { split; [constructor|]. exists 0%nat. simpl. repeat split; lia. }
    set (l := x :: pcm_data) in *.
    assert (Htake : (length (take frame_size l) <= frame_size)%nat)
      by (rewrite length_take; lia).
    destruct (IH (drop frame_size l)) as (Hall & pad & Hpad & Hcat & Hcount).
    { rewrite length_drop. subst l. simpl in *. lia. }
    split; [constructor; [by apply length_frame_samples | done]|].
    destruct (decide (length l < frame_size)%nat) as [Hshort|Hlong].
    + rewrite drop_ge in * by lia.
      assert (Hnil : split_frames fuel [] = []) by (by destruct fuel).
      rewrite Hnil in *. rewrite take_ge by lia.
      exists (frame_size - length l)%nat. rewrite frame_samples_spec by lia.
      simpl. rewrite app_nil_r. unfold frame_size in *.
      repeat split; subst l; simpl in *; lia.
    + exists pad. rewrite frame_samples_spec by done.
      rewrite length_take. rewrite length_drop in Hcount.
      replace (frame_size - frame_size `min` length l)%nat with 0%nat by lia.
      cbn [replicate concat length].
      rewrite app_nil_r, Hcat, app_assoc, <- map_app, take_drop.
      repeat split; lia.
Qed.

(** X1. Every frame made from a decoded payload has exactly 960
    samples, whatever the payload's length. *)
Theorem frames_have_frame_size pcm_data :
  Forall (fun fr => length fr = 960%nat) (pcm_frames pcm_data).
Proof. by apply (split_frames_spec (length pcm_data) pcm_data). Qed.

(** X2. The frames of a payload, put end to end, are the payload's
    samples cast to 16 bits, in order, followed by less than one frame
    of zero samples: nothing is dropped, reordered or truncated, and
    the padding is silence. *)
Theorem frames_keep_the_payload pcm_data :
  exists pad,
    (pad < 960)%nat /\
    concat (pcm_frames pcm_data) = map astype_int16 pcm_data ++ replicate pad 0 /\
    (960 * length (pcm_frames pcm_data) = length pcm_data + pad)%nat.
Proof. by apply (split_frames_spec (length pcm_data) pcm_data). Qed.

(** X3. The cast to 16 bits always lands in the signed 16-bit range,
    and it leaves a sample unchanged exactly when the sample is in that
    range. *)
Theorem astype_int16_range x :
  -32768 <= astype_int16 x < 32768 /\
  (astype_int16 x = x <-> -32768 <= x < 32768).
Proof.
  unfold astype_int16.
  pose proof (Z.mod_pos_bound (x + 32768) 65536) as Hb.
  split; [lia|]. split.
  - intros H. lia.
  - intros Hx. rewrite Z.mod_small by lia. lia.
Qed.

Lemma exec_play_all env audio_bytes :
  (forall n fr, capture env n fr = true) ->
  exec env 0 (play_audio_to_room audio_bytes)
  = map Played (payload_frames env audio_bytes).
Proof.
  intros Hcap. unfold play_audio_to_room, payload_frames. simpl.
  destruct (decode env audio_bytes) as [pcm|]; [|done].
  generalize (pcm_frames pcm) 0%nat. intros frames.
  induction frames as [|fr frames IH]; intros n; simpl; [done|].
  by rewrite Hcap, IH.
Qed.

(** X4. When every [capture_frame] succeeds, [play_audio_to_room]
    pushes exactly the frames of the decoded payload, in order; a
    payload that cannot be decoded pushes nothing. *)
Theorem play_audio_to_room_pushes_frames env audio_bytes :
  (forall n fr, capture env n fr = true) ->
  exec env 0 (play_audio_to_room audio_bytes)
  = map Played (payload_frames env audio_bytes).
Proof. apply exec_play_all. Qed.

Lemma play_audio_to_room_pushes_frames_witness :
  exec mock_services 0 (play_audio_to_room [Byte.x49])
  = map Played (payload_frames mock_services [Byte.x49]).
Proof. apply (play_audio_to_room_pushes_frames mock_services). done. Defined.

(** ** The answer stream *)

(** X5. On a stream none of whose lines raises, the loop of
    [query_govt_api] returns the contents of the [answer_chunk] events
    concatenated in stream order after what was accumulated before;
    blank lines, lines that are not JSON and events of any other type
    add nothing. *)
Theorem read_stream_concatenates_chunks lines acc :
  forallb (fun l => negb (is_broken l)) lines = true ->
  read_stream lines acc = Normal (acc ++ concat (map chunk_of lines)).
Proof. intros Hok. by apply read_stream_chunks. Qed.

Lemma read_stream_concatenates_chunks_witness :
  read_stream error_stream [] = Normal ([] ++ concat (map chunk_of error_stream)).
Proof. apply (read_stream_concatenates_chunks error_stream []). reflexivity. Defined.

(** X6. Reading a stream delivered in two parts is reading the first
    part and then the second from what the first accumulated; an
    exception in the first part ends the reading. *)
Theorem read_stream_in_two_parts lines1 lines2 acc :
  read_stream (lines1 ++ lines2) acc
  = match read_stream lines1 acc with
    | Normal full_response => read_stream lines2 full_response
    | Throws e => Throws e
    end.
Proof.
  revert acc. induction lines1 as [|l lines1 IH]; intros acc; [done|].
  destruct l as [| |type content|e]; cbn [app read_stream]; try apply IH.
  - destruct (bool_decide (type = Some (u "answer_chunk"))); apply IH.
  - done.
Qed.

Lemma read_stream_broken lines :
  existsb is_broken lines = true ->
  forall acc, exists e, read_stream lines acc = Throws e.
Proof.
  induction lines as [|l lines IH]; intros Hb acc; [done|].
  destruct l as [| |type content|e]; cbn [existsb is_broken read_stream] in *;
    try (by apply IH).
  - destruct (bool_decide (type = Some (u "answer_chunk"))); by apply IH.
  - by exists e.
Qed.

(** X7. When a line of the answer stream raises (the transport fails
    or the line cannot be handled), the chunks received before it are
    discarded: the turn makes no synthesis request and plays nothing. *)
Theorem broken_stream_is_not_synthesized env h p :
  (forall uid q, exists status lines,
      govt env uid q = Response status lines /\ existsb is_broken lines = true) ->
  filter is_tts (run_turn env h p).2 = [] /\
  filter is_played (run_turn env h p).2 = [].
Proof.
  intros Hg. unfold run_turn, trigger_conversation_turn. simpl.
  destruct (truthy (ba_get h (audio_buffer p))); simpl; [|done].
  unfold turn_stages. rewrite exec_try_except_ret. simpl. rewrite !filter_cons. simpl.
  destruct (stt env _) as [[|]|status body]; simpl; try done.
  destruct (status =? 200); simpl; [|done].
  destruct (py_strip (default [] body)) as [|c text]; simpl; [done|].
  destruct (Hg (identity p) (c :: text)) as (status' & lines & -> & Hb).
  destruct (read_stream_broken lines Hb []) as [e He].
  rewrite !filter_cons. simpl.
  destruct (status' =? 200); simpl; [|done].
  rewrite He. by destruct e.
Qed.

Lemma broken_stream_is_not_synthesized_witness :
  filter is_tts
    (run_turn (mkServices (stt mock_services)
                 (fun _ _ => Response 200 (error_stream ++ [Broken ClientError]))
                 (tts mock_services) (decode mock_services) (capture mock_services))
       speaking_heap speaking_processor).2 = [] /\
  filter is_played
    (run_turn (mkServices (stt mock_services)
                 (fun _ _ => Response 200 (error_stream ++ [Broken ClientError]))
                 (tts mock_services) (decode mock_services) (capture mock_services))
       speaking_heap speaking_processor).2 = [].
Proof.
  apply broken_stream_is_not_synthesized.
  intros uid q. exists 200, (error_stream ++ [Broken ClientError]).
  split; reflexivity.
Defined.

(** ** The turn pipeline *)

(** X8. A turn that finds the speech buffer empty makes no request at
    all; it still resets the speech state and releases the lock. *)
Theorem empty_buffer_turn_is_noop env h p :
  ba_get h (audio_buffer p) = [] ->
  run_turn env h p
  = (ba_clear h (audio_buffer p),
     mkProcessor (identity p) (audio_buffer p) false 0 0 false, []).
Proof.
  intros Hb. unfold run_turn, trigger_conversation_turn. simpl. by rewrite Hb.
Qed.

Lemma empty_buffer_turn_is_noop_witness :
  run_turn mock_services ∅ speaking_processor
  = (ba_clear ∅ (audio_buffer speaking_processor),
     mkProcessor (identity speaking_processor) (audio_buffer speaking_processor)
       false 0 0 false, []).
Proof. apply (empty_buffer_turn_is_noop mock_services ∅ speaking_processor). done. Defined.

(** X9. Whatever the collaborators answer, the requests of a turn are
    in pipeline order: at most one transcription request, then at most
    one answer request carrying the participant's identity, then at
    most one synthesis request, then frames; no stage is called unless
    the one before it was, and no frame is played without a synthesis
    request. *)
Theorem turn_requests_in_order env h p :
  pipeline_order (identity p) (run_turn env h p).2.
Proof.
  unfold run_turn, trigger_conversation_turn. simpl.
  destruct (truthy (ba_get h (audio_buffer p))); simpl.
  2:{ exists [], [], [], []. simpl. repeat split; lia. }
  unfold turn_stages. rewrite exec_try_except_ret. simpl.
  turn_cases env.
  all: try (eexists [_], [], [], []; simpl; repeat split; lia).
  all: try (eexists [_], [_], [], []; simpl; repeat split; lia).
  all: try (eexists [_], [_], [_], []; simpl; repeat split; lia).
  destruct (exec_push_frames env (pcm_frames l0) 0) as [k ->].
  eexists [_], [_], [_], _. simpl. repeat split; lia.
Qed.

(** X10. When every stage succeeds (a transcription that is not blank,
    a stream none of whose lines raises and that carries some answer
    text, non-empty synthesized audio that decodes, frames that are all
    captured), the turn makes exactly these requests in this order: the
    transcription request, the answer request with the participant's
    identity and the stripped transcription, the synthesis request with
    the concatenated answer chunks, and one frame push for each frame
    of the decoded audio. *)
Theorem successful_turn env h p text lines audio :
  truthy (ba_get h (audio_buffer p)) = true ->
  (forall file, stt env file = Response 200 (Some text)) ->
  truthy (py_strip text) = true ->
  govt env (identity p) (py_strip text) = Response 200 lines ->
  forallb (fun l => negb (is_broken l)) lines = true ->
  truthy (concat (map chunk_of lines)) = true ->
  tts env (concat (map chunk_of lines)) = Response 200 audio ->
  truthy audio = true ->
  (forall n fr, capture env n fr = true) ->
  exists file,
    (run_turn env h p).2
    = [CallSTT file; CallGovt (identity p) (py_strip text);
       CallTTS (concat (map chunk_of lines))]
      ++ map Played (payload_frames env audio).
Proof.
  intros Hb Hstt Ht Hg Hok Ha Htts Haudio Hcap.
  unfold run_turn, trigger_conversation_turn. simpl. rewrite Hb. simpl.
  unfold turn_stages. rewrite exec_try_except_ret. simpl.
  eexists. f_equal. rewrite Hstt. simpl.
  destruct (py_strip text) as [|c t] eqn:Et; [done|]. simpl.
  rewrite Hg. simpl.
  rewrite (read_stream_chunks lines Hok []). simpl.
  destruct (concat (map chunk_of lines)) as [|c' t'] eqn:Ec; [done|]. simpl.
  rewrite Htts. simpl. destruct audio as [|b audio]; [done|].
  do 2 f_equal.
  exact (exec_play_all env (b :: audio) Hcap).
Qed.

Lemma successful_turn_witness :
  exists file,
    (run_turn mock_services speaking_heap speaking_processor).2
    = [CallSTT file; CallGovt "alice" (py_strip (u "hello"));
       CallTTS (concat (map chunk_of
                  [Event (Some (u "answer_chunk")) (Some (u "world"))]))]
      ++ map Played (payload_frames mock_services [Byte.x49; Byte.x44; Byte.x33]).
Proof.
  apply (successful_turn mock_services speaking_heap speaking_processor
           (u "hello") [Event (Some (u "answer_chunk")) (Some (u "world"))]
           [Byte.x49; Byte.x44; Byte.x33]);
    try reflexivity; done.
Defined.

(** X11. When the transcription call fails (an exception or a status
    other than 200), the turn ends there: no answer request, no
    synthesis request, no frame. *)
Theorem failed_transcription_ends_turn env h p :
  (forall file, failed (stt env file) = true) ->
  filter is_govt (run_turn env h p).2 = [] /\
  filter is_tts (run_turn env h p).2 = [] /\
  filter is_played (run_turn env h p).2 = [].
Proof.
  intros Hf. unfold run_turn, trigger_conversation_turn. simpl.
  destruct (truthy (ba_get h (audio_buffer p))); simpl; [|done].
  unfold turn_stages. rewrite exec_try_except_ret. simpl. rewrite !filter_cons. simpl.
  specialize (Hf (ba_get (ba_clear h (audio_buffer p)) (audio_buffer p))).
  destruct (stt env _) as [[|]|status body]; simpl in *; try done.
  by rewrite Hf.
Qed.

Lemma failed_transcription_ends_turn_witness :
  filter is_govt
    (run_turn (mkServices (fun _ => Response 503 None) (govt mock_services)
                 (tts mock_services) (decode mock_services) (capture mock_services))
       speaking_heap speaking_processor).2 = [] /\
  filter is_tts
    (run_turn (mkServices (fun _ => Response 503 None) (govt mock_services)
                 (tts mock_services) (decode mock_services) (capture mock_services))
       speaking_heap speaking_processor).2 = [] /\
  filter is_played
    (run_turn (mkServices (fun _ => Response 503 None) (govt mock_services)
                 (tts mock_services) (decode mock_services) (capture mock_services))
       speaking_heap speaking_processor).2 = [].
Proof. apply failed_transcription_ends_turn. done. Defined.

(** X12. When the answer call fails (an exception or a status other
    than 200), the turn ends there: no synthesis request, no frame. *)
Theorem failed_answer_ends_turn env h p :
  (forall uid q, failed (govt env uid q) = true) ->
  filter is_tts (run_turn env h p).2 = [] /\
  filter is_played (run_turn env h p).2 = [].
Proof.
  intros Hf. unfold run_turn, trigger_conversation_turn. simpl.
  destruct (truthy (ba_get h (audio_buffer p))); simpl; [|done].
  unfold turn_stages. rewrite exec_try_except_ret. simpl. rewrite !filter_cons. simpl.
  destruct (stt env _) as [[|]|status body]; simpl; try done.
  destruct (status =? 200); simpl; [|done].
  destruct (py_strip (default [] body)) as [|c text]; simpl; [done|].
  specialize (Hf (identity p) (c :: text)). rewrite !filter_cons. simpl.
  destruct (govt env _ _) as [[|]|status' lines]; simpl in *; try done.
  by rewrite Hf.
Qed.

Lemma failed_answer_ends_turn_witness :
  filter is_tts
    (run_turn (mkServices (stt mock_services) (fun _ _ => Raised ClientError)
                 (tts mock_services) (decode mock_services) (capture mock_services))
       speaking_heap speaking_processor).2 = [] /\
  filter is_played
    (run_turn (mkServices (stt mock_services) (fun _ _ => Raised ClientError)
                 (tts mock_services) (decode mock_services) (capture mock_services))
       speaking_heap speaking_processor).2 = [].
Proof. apply failed_answer_ends_turn. done. Defined.

(** X13. When the synthesis call fails (an exception or a status other
    than 200) or returns no audio, no frame is played. *)
Theorem failed_synthesis_plays_nothing env h p :
  (forall text, failed (tts env text) = true \/ tts env text = Response 200 []) ->
  filter is_played (run_turn env h p).2 = [].
Proof.
  intros Hf. unfold run_turn, trigger_conversation_turn. simpl.
  destruct (truthy (ba_get h (audio_buffer p))); simpl; [|done].
  unfold turn_stages. rewrite exec_try_except_ret. simpl. rewrite !filter_cons. simpl.
  destruct (stt env _) as [[|]|status body]; simpl; try done.
  destruct (status =? 200); simpl; [|done].
  destruct (py_strip (default [] body)) as [|c text]; simpl; [done|].
  rewrite !filter_cons. simpl.
  destruct (govt env _ _) as [[|]|status' lines]; simpl; try done.
  destruct (status' =? 200); simpl; [|done].
  destruct (read_stream lines []) as [[|c' resp]|[|]]; simpl; try done.
  rewrite !filter_cons. simpl.
  destruct (Hf (c' :: resp)) as [Hfail | ->]; [|done].
  destruct (tts env _) as [[|]|status'' audio]; simpl in *; try done.
  by rewrite Hfail.
Qed.

Lemma failed_synthesis_plays_nothing_witness :
  filter is_played
    (run_turn (mkServices (stt mock_services) (govt mock_services)
                 (fun _ => Response 400 []) (decode mock_services)
                 (capture mock_services))
       speaking_heap speaking_processor).2 = [].
Proof. apply failed_synthesis_plays_nothing. intros text. by left. Defined.

(** ** The services and the orchestrator together *)

Lemma frombuffer_int16_spec audio_bytes :
  forall n, (length audio_bytes <= n)%nat ->
  match Vad.frombuffer_int16 audio_bytes with
  | Some samples =>
    length audio_bytes = (2 * length samples)%nat /\
    Forall (fun x => -32768 <= x < 32768) samples
  | None => Nat.odd (length audio_bytes) = true
  end.
Proof.
  intros n. revert audio_bytes.
  induction n as [|n IH]; intros audio_bytes Hlen.
  - destruct audio_bytes; [|simpl in Hlen; lia]. simpl. split; [done | constructor].
  - destruct audio_bytes as [|lo [|hi rest]]; cbn [Vad.frombuffer_int16].
    + split; [done | constructor].
    + done.
    + specialize (IH rest). simpl in Hlen.
      destruct (Vad.frombuffer_int16 rest) as [samples|].
      * destruct IH as [Hl Hall]; [lia|]. split; [simpl; lia|].
        constructor; [|done]. unfold Vad.int16_le.
        pose proof (Byte.to_N_bounded lo). pose proof (Byte.to_N_bounded hi).
        destruct (32768 <=? _) eqn:E; [apply Z.leb_le in E | apply Z.leb_gt in E];
          lia.
      * cbn [length]. rewrite Nat.odd_succ, Nat.even_succ. apply IH. lia.
Qed.

(** X14. [np.frombuffer] as the VAD service uses it: a body of odd
    length is refused; a body of even length gives half as many
    samples, each in the signed 16-bit range. *)
Theorem frombuffer_int16_samples audio_bytes :
  match Vad.frombuffer_int16 audio_bytes with
  | Some samples =>
    length audio_bytes = (2 * length samples)%nat /\
    Forall (fun x => -32768 <= x < 32768) samples
  | None => Nat.odd (length audio_bytes) = true
  end.
Proof. by apply (frombuffer_int16_spec audio_bytes (length audio_bytes)). Qed.

(** X15. A frame the VAD service cannot classify (no model loaded, a
    body of odd length, or a model call that raises: status 503 or 500)
    leaves the processor as it is: nothing is buffered, no counter
    moves, no turn is created. *)
Theorem unclassified_frame_is_dropped model frame_data h p :
  (Vad.detect_speech model frame_data).1 <> 200 ->
  handle_vad (Vad.reply (Vad.detect_speech model frame_data)) frame_data h p
  = Normal (h, p, 0%nat).
Proof.
  intros Hs. unfold Vad.reply, handle_vad.
  destruct ((Vad.detect_speech model frame_data).1 =? 200) eqn:E; [|done].
  apply Z.eqb_eq in E. done.
Qed.

Lemma unclassified_frame_is_dropped_witness :
  handle_vad (Vad.reply (Vad.detect_speech loud_model [Byte.x01])) [Byte.x01]
    speaking_heap speaking_processor
  = Normal (speaking_heap, speaking_processor, 0%nat).
Proof. apply unclassified_frame_is_dropped. discriminate. Defined.

(** X16. With a loaded model that answers a probability for a
    well-formed, non-empty frame, the frame is appended to the speech
    buffer exactly when the probability is at least 0.5, the threshold
    included; below it the store is left as it is. *)
Theorem threshold_decides_buffering run_model frame_data samples prob h p :
  frame_data <> [] ->
  Vad.frombuffer_int16 frame_data = Some samples ->
  run_model samples = Some prob ->
  exists h' p' created,
    handle_vad (Vad.reply (Vad.detect_speech (Some run_model) frame_data))
      frame_data h p = Normal (h', p', created) /\
    ((1 # 2 <= prob)%Q ->
       h' = ba_extend h (audio_buffer p) frame_data /\ is_speaking p' = true) /\
    (~ (1 # 2 <= prob)%Q -> h' = h /\ is_speaking p' = is_speaking p).
Proof.
  intros Hne Hfrom Hrun. unfold Vad.detect_speech.
  destruct frame_data as [|b frame_data]; [done|]. cbn [length Nat.eqb].
  rewrite Hfrom, Hrun. unfold Vad.reply. cbn [fst snd option_map].
  unfold Vad.VAD_THRESHOLD.
  destruct (Qle_bool (1 # 2) prob) eqn:E.
  - rewrite handle_vad_speech by done. do 3 eexists. split; [done|].
    split; [done|]. intros Hn. apply Qle_bool_iff in E. done.
  - rewrite handle_vad_silence by done.
    assert (Hlt : ~ (1 # 2 <= prob)%Q).
    { intros Hle. apply Qle_bool_iff in Hle. congruence. }
    destruct (is_speaking p) eqn:Esp; do 3 eexists; (split; [done|]);
      split; try done; intros _; by rewrite ?Esp.
Qed.

Lemma threshold_decides_buffering_witness :
  exists h' p' created,
    handle_vad
      (Vad.reply (Vad.detect_speech (Some (fun _ => Some (1 # 2)%Q)) frame_a))
      frame_a speaking_heap speaking_processor = Normal (h', p', created) /\
    ((1 # 2 <= 1 # 2)%Q ->
       h' = ba_extend speaking_heap (audio_buffer speaking_processor) frame_a /\
       is_speaking p' = true) /\
    (~ (1 # 2 <= 1 # 2)%Q ->
       h' = speaking_heap /\ is_speaking p' = is_speaking speaking_processor).
Proof.
  apply (threshold_decides_buffering (fun _ => Some (1 # 2)%Q) frame_a
           [Vad.int16_le Byte.x01 Byte.x02] (1 # 2)%Q);
    [discriminate | reflexivity | reflexivity].
Defined.

(** X17. An empty frame is answered "no speech" by the VAD service
    without consulting the model; the processor buffers nothing for it
    and its speaking flag and speech duration stay as they are. *)
Theorem empty_frame_is_silence run_model h p :
  exists p' created,
    handle_vad (Vad.reply (Vad.detect_speech (Some run_model) [])) [] h p
    = Normal (h, p', created) /\
    is_speaking p' = is_speaking p /\
    speech_duration_ms p' = speech_duration_ms p.
Proof.
  unfold Vad.detect_speech, Vad.reply. cbn [length Nat.eqb fst snd option_map].
  rewrite handle_vad_silence by done.
  destruct (is_speaking p) eqn:E; do 2 eexists; split; done.
Qed.

(** *** Transcription *)

Lemma lstrip_starts_clean s : starts_clean (lstrip s).
Proof.
  induction s as [|c s IH]; simpl; [done|].
  destruct (py_isspace c) eqn:E; [done | simpl; done].
Qed.

Lemma lstrip_clean s : starts_clean s -> lstrip s = s.
Proof. destruct s as [|c s]; simpl; [done|]. by intros ->. Qed.

Lemma rstrip_prefix s :
  exists suffix, s = rev (lstrip (rev s)) ++ suffix.
Proof.
  destruct (lstrip_suffix (rev s)) as [pre [E _]].
  exists (rev pre). rewrite <- rev_app_distr, <- E. by rewrite rev_involutive.
Qed.

Lemma rstrip_starts_clean s : starts_clean s -> starts_clean (rev (lstrip (rev s))).
Proof.
  intros Hs. destruct (rstrip_prefix s) as [suffix E].
  destruct (rev (lstrip (rev s))) as [|c t]; [done|].
  rewrite E in Hs. done.
Qed.

Lemma py_strip_idempotent s : py_strip (py_strip s) = py_strip s.
Proof.
  unfold py_strip.
  rewrite (lstrip_clean (rev (lstrip (rev (lstrip s)))))
    by apply rstrip_starts_clean, lstrip_starts_clean.
  rewrite rev_involutive.
  by rewrite (lstrip_clean (lstrip (rev (lstrip s)))) by apply lstrip_starts_clean.
Qed.

(** X18. Against the STT service, [transcribe_audio] of the
    orchestrator returns exactly the text the service computed (the
    pipeline's text, stripped once; stripping it again changes
    nothing), and [None] when that text is empty, when the pipeline
    raises (500) or when it is not loaded (503). *)
Theorem transcription_through_service pipe answer gtts decoder capturer h l :
  advance (deployed pipe answer gtts decoder capturer) 0 (transcribe_audio h l)
  = Some (Ret match pipe with
              | Some run_pipe =>
                match run_pipe (ba_get h l) with
                | Some text => if truthy (py_strip text) then Some (py_strip text) else None
                | None => None
                end
              | None => None
              end, 0%nat).
Proof.
  unfold transcribe_audio, deployed, Stt.transcribe_audio. simpl.
  destruct pipe as [run_pipe|]; [|done].
  destruct (run_pipe (ba_get h l)) as [text|]; [|done].
  simpl. by rewrite py_strip_idempotent.
Qed.

Lemma tts_blank_status gtts text lang :
  forallb py_isspace text = true ->
  Tts.synthesize_speech gtts text lang = Response 400 [].
Proof.
  intros Hb. apply py_strip_nil_iff in Hb. unfold Tts.synthesize_speech.
  rewrite Hb. simpl. by rewrite orb_true_r.
Qed.

(** X19. The TTS service refuses a text with status 400 exactly when
    the text is empty or made of white space only. *)
Theorem tts_rejects_blank_text gtts text lang :
  Tts.synthesize_speech gtts text lang = Response 400 []
  <-> forallb py_isspace text = true.
Proof.
  unfold Tts.synthesize_speech. rewrite <- py_strip_nil_iff.
  destruct text as [|c text]; [done|]. simpl.
  destruct (py_strip (c :: text)) as [|c' t]; simpl; [done|].
  destruct (gtts (c :: text) lang); split; discriminate.
Qed.

(** X20. With the TTS service behind the orchestrator, an answer that
    is empty or made of white space only is never played: the empty
    one is not sent to synthesis, the blank one is refused there with
    status 400. *)
Theorem blank_answer_plays_nothing pipe answer gtts decoder capturer h p :
  (forall uid q, exists status lines,
      answer uid q = Response status lines /\
      forallb (fun l => negb (is_broken l)) lines = true /\
      forallb py_isspace (concat (map chunk_of lines)) = true) ->
  filter is_played (run_turn (deployed pipe answer gtts decoder capturer) h p).2 = [].
Proof.
  intros Ha. unfold run_turn, trigger_conversation_turn. simpl.
  destruct (truthy (ba_get h (audio_buffer p))); simpl; [|done].
  unfold turn_stages. rewrite exec_try_except_ret. simpl. rewrite !filter_cons. simpl.
  destruct (Stt.transcribe_audio pipe _) as [[|]|status body]; simpl; try done.
  destruct (status =? 200); simpl; [|done].
  destruct (py_strip (default [] body)) as [|c text]; simpl; [done|].
  rewrite !filter_cons. simpl.
  destruct (Ha (identity p) (c :: text)) as (status' & lines & -> & Hok & Hblank).
  simpl. destruct (status' =? 200); simpl; [|done].
  rewrite (read_stream_chunks lines Hok []). simpl.
  destruct (concat (map chunk_of lines)) as [|c' resp] eqn:Ec; simpl; [done|].
  rewrite !filter_cons. simpl.
  apply (tts_blank_status gtts _ "bn") in Hblank. rewrite Hblank. done.
Qed.

Lemma blank_answer_plays_nothing_witness :
  filter is_played
    (run_turn
       (deployed (Some (fun _ => Some (u "hello")))
          (fun _ _ => Response 200 [Event (Some (u "answer_chunk")) (Some (u " "))])
          (fun _ _ => Some [Byte.x49]) (decode mock_services)
          (capture mock_services))
       speaking_heap speaking_processor).2 = [].
Proof.
  apply blank_answer_plays_nothing. intros uid q.
  exists 200, [Event (Some (u "answer_chunk")) (Some (u " "))].
  repeat split; reflexivity.
Defined.

(** ** The session manager over time *)

Lemma ba_new_fresh (h : store) : h !! (ba_new h).1 = None.
Proof. unfold ba_new. simpl. apply not_elem_of_dom, is_fresh. Qed.

Lemma room_run_snoc events e r :
  room_run (events ++ [e]) r = room_step e (room_run events r).
Proof. unfold room_run. by rewrite foldl_app. Qed.

Lemma room_ok_step e r : room_ok r -> room_ok (room_step e r).
Proof.
  intros [Hown Hinj]. destruct e as [kind id|id]; simpl.
  - unfold on_track_subscribed. destruct kind; try done.
    case_bool_decide; [|done].
    destruct (processors r !! id) as [p|] eqn:Ep; [done|].
    unfold new_processor. pose proof (ba_new_fresh (room_heap r)) as Hfresh.
    destruct (ba_new (room_heap r)) as [l h'] eqn:En.
    assert (h' = <[l := []]> (room_heap r)) as ->
      by (unfold ba_new in En; by injection En as <- <-).
    simpl in *. split.
    + intros id0 p0 H0. simpl in *. destruct (decide (id = id0)) as [->|Hne].
      * rewrite lookup_insert_eq in H0. injection H0 as <-. simpl.
        by rewrite lookup_insert_eq.
      * rewrite lookup_insert_ne in H0 by done.
        destruct (Hown _ _ H0) as [Hid Hsome]. split; [done|].
        rewrite lookup_insert_ne; [done|]. intros Heq.
        rewrite <- Heq, Hfresh in Hsome. by destruct Hsome.
    + intros id1 id2 p1 p2 H1 H2 Heq. simpl in *.
      destruct (decide (id1 = id2)) as [|Hne12]; [done|]. exfalso.
      rewrite lookup_insert in H1, H2.
      destruct (decide (id = id1)) as [E1|E1]; destruct (decide (id = id2)) as [E2|E2].
      * congruence.
      * injection H1 as <-. simpl in Heq.
        destruct (Hown _ _ H2) as [_ Hsome]. rewrite <- Heq, Hfresh in Hsome.
        by destruct Hsome.
      * injection H2 as <-. simpl in Heq.
        destruct (Hown _ _ H1) as [_ Hsome]. rewrite Heq, Hfresh in Hsome.
        by destruct Hsome.
      * eauto.
  - unfold on_participant_disconnected.
    destruct (processors r !! id) as [p|] eqn:Ep; [|done]. simpl. split.
    + intros id0 p0 H0. simpl in *. apply lookup_delete_Some in H0 as [_ H0]. eauto.
    + intros id1 id2 p1 p2 H1 H2. simpl in *.
      apply lookup_delete_Some in H1 as [_ H1].
      apply lookup_delete_Some in H2 as [_ H2]. eauto.
Qed.

Lemma room_ok_run events : room_ok (room_run events empty_room).
Proof.
  induction events as [|e events IH] using rev_ind.
  - split; intros *; simpl; by rewrite lookup_empty.
  - rewrite room_run_snoc. by apply room_ok_step.
Qed.

(** X21. Whatever tracks are subscribed and whoever disconnects, two
    tracked participants never share a speech buffer: the buffers of
    different sessions are different objects. *)
Theorem sessions_never_share_a_buffer events id1 id2 p1 p2 :
  processors (room_run events empty_room) !! id1 = Some p1 ->
  processors (room_run events empty_room) !! id2 = Some p2 ->
  id1 <> id2 ->
  audio_buffer p1 <> audio_buffer p2.
Proof.
  intros H1 H2 Hne Heq. destruct (room_ok_run events) as [_ Hinj]. eauto.
Qed.

Lemma sessions_never_share_a_buffer_witness :
  audio_buffer (mkProcessor "alice" 1%positive false 0 0 false)
  <> audio_buffer (mkProcessor "bob" 2%positive false 0 0 false).
Proof.
  apply (sessions_never_share_a_buffer
           [TrackSubscribed KIND_AUDIO "alice"; TrackSubscribed KIND_AUDIO "bob"]
           "alice" "bob");
    [vm_compute; reflexivity | vm_compute; reflexivity | discriminate].
Defined.

Lemma tracked_was_subscribed events :
  forall id p,
    processors (room_run events empty_room) !! id = Some p ->
    id <> BOT_IDENTITY /\ In (TrackSubscribed KIND_AUDIO id) events.
Proof.
  induction events as [|e events IH] using rev_ind; intros id p H.
  - simpl in H. by rewrite lookup_empty in H.
  - rewrite room_run_snoc in H. rewrite in_app_iff.
    destruct e as [kind id'|id']; simpl in H.
    + unfold on_track_subscribed in H. destruct kind; simpl in H;
        try (destruct (IH _ _ H); by auto).
      case_bool_decide as Hbot; [|destruct (IH _ _ H); by auto].
      destruct (processors (room_run events empty_room) !! id') eqn:E; simpl in H;
        [destruct (IH _ _ H); by auto|].
      destruct (decide (id' = id)) as [->|Hne].
      * split; [done|]. right. by left.
      * rewrite lookup_insert_ne in H by done. destruct (IH _ _ H); by auto.
    + unfold on_participant_disconnected in H.
      destruct (processors (room_run events empty_room) !! id') eqn:E; simpl in H.
      * apply lookup_delete_Some in H as [_ H]. destruct (IH _ _ H); by auto.
      * destruct (IH _ _ H); by auto.
Qed.

(** X22. The bot never gets a session of its own, and a track that is
    not audio never creates one: after any events, a tracked identity
    is not the bot's and has had an audio track subscribed. *)
Theorem only_audio_participants_are_tracked events id p :
  processors (room_run events empty_room) !! id = Some p ->
  id <> BOT_IDENTITY /\ In (TrackSubscribed KIND_AUDIO id) events.
Proof. apply tracked_was_subscribed. Qed.

Lemma only_audio_participants_are_tracked_witness :
  "alice" <> BOT_IDENTITY /\
  In (TrackSubscribed KIND_AUDIO "alice")
     [TrackSubscribed KIND_VIDEO "carol"; TrackSubscribed KIND_AUDIO BOT_IDENTITY;
      TrackSubscribed KIND_AUDIO "alice"].
Proof.
  apply (only_audio_participants_are_tracked
           [TrackSubscribed KIND_VIDEO "carol"; TrackSubscribed KIND_AUDIO BOT_IDENTITY;
            TrackSubscribed KIND_AUDIO "alice"]
           "alice" (mkProcessor "alice" 1%positive false 0 0 false)).
  vm_compute. reflexivity.
Defined.

Lemma subscribe_creates_session r participant :
  processors r !! participant = None ->
  participant <> BOT_IDENTITY ->
  exists p,
    processors (on_track_subscribed KIND_AUDIO participant r) !! participant = Some p /\
    p = mkProcessor participant (audio_buffer p) false 0 0 false /\
    room_heap r !! audio_buffer p = None /\
    ba_get (room_heap (on_track_subscribed KIND_AUDIO participant r)) (audio_buffer p) = [] /\
    (forall l, l <> audio_buffer p ->
       room_heap (on_track_subscribed KIND_AUDIO participant r) !! l = room_heap r !! l) /\
    (forall id, id <> participant ->
       processors (on_track_subscribed KIND_AUDIO participant r) !! id
       = processors r !! id) /\
    loops_of participant (on_track_subscribed KIND_AUDIO participant r)
    = S (loops_of participant r).
Proof.
  intros Hnone Hbot. unfold on_track_subscribed, loops_of.
  rewrite bool_decide_true by done. rewrite Hnone.
  unfold new_processor. pose proof (ba_new_fresh (room_heap r)) as Hfresh.
  destruct (ba_new (room_heap r)) as [l h'] eqn:En.
  assert (h' = <[l := []]> (room_heap r)) as ->
    by (unfold ba_new in En; by injection En as <- <-).
  simpl in *. eexists. rewrite lookup_insert_eq. split; [done|]. simpl.
  split; [done|]. split; [done|]. split.
  { unfold ba_get. by rewrite lookup_insert_eq. }
  split. { intros l' Hl. by rewrite lookup_insert_ne. }
  split. { intros id Hid. by rewrite lookup_insert_ne. }
  rewrite filter_app, length_app, filter_cons.
  case_decide; [simpl; lia | done].
Qed.

(** X23. The first audio track of a participant creates a session in
    its initial state: not speaking, both counters zero, lock free, an
    empty buffer that is a new object of the store.  The buffers that
    were there keep their contents, the other sessions stay as they
    are, and one frame loop is started. *)
Theorem first_arrival_creates_idle_session r participant :
  processors r !! participant = None ->
  participant <> BOT_IDENTITY ->
  exists p,
    processors (on_track_subscribed KIND_AUDIO participant r) !! participant = Some p /\
    p = mkProcessor participant (audio_buffer p) false 0 0 false /\
    room_heap r !! audio_buffer p = None /\
    ba_get (room_heap (on_track_subscribed KIND_AUDIO participant r)) (audio_buffer p) = [] /\
    (forall l, l <> audio_buffer p ->
       room_heap (on_track_subscribed KIND_AUDIO participant r) !! l = room_heap r !! l) /\
    (forall id, id <> participant ->
       processors (on_track_subscribed KIND_AUDIO participant r) !! id
       = processors r !! id) /\
    loops_of participant (on_track_subscribed KIND_AUDIO participant r)
    = S (loops_of participant r).
Proof. apply subscribe_creates_session. Qed.

Lemma first_arrival_creates_idle_session_witness :
  exists p,
    processors (on_track_subscribed KIND_AUDIO "alice" empty_room) !! "alice" = Some p /\
    p = mkProcessor "alice" (audio_buffer p) false 0 0 false.
Proof.
  destruct (first_arrival_creates_idle_session empty_room "alice")
    as (p & Hp & Hidle & _); [reflexivity | discriminate |].
  exists p. split; [exact Hp | exact Hidle].
Defined.

(** X24. [on_participant_disconnected] closes and removes the session
    of that participant and nothing else: the other sessions, the
    store and the running frame loops are as before, and for a
    participant that is not tracked nothing is closed. *)
Theorem disconnect_removes_one_session participant r :
  processors (on_participant_disconnected participant r).1 !! participant = None /\
  (forall id, id <> participant ->
     processors (on_participant_disconnected participant r).1 !! id
     = processors r !! id) /\
  (on_participant_disconnected participant r).2
  = match processors r !! participant with Some p => [p] | None => [] end /\
  room_heap (on_participant_disconnected participant r).1 = room_heap r /\
  frame_loops (on_participant_disconnected participant r).1 = frame_loops r.
Proof.
  unfold on_participant_disconnected.
  destruct (processors r !! participant) as [p|] eqn:Ep; simpl.
  - rewrite lookup_delete_eq. repeat split; try done.
    intros id Hid. by rewrite lookup_delete_ne.
  - by repeat split.
Qed.

(** X25. A participant who disconnects and whose audio track is then
    subscribed again gets a new session: it is in the initial state and
    its buffer is a different object from the one of the session that
    was closed. *)
Theorem reconnect_gets_fresh_session events participant old :
  processors (room_run events empty_room) !! participant = Some old ->
  exists p,
    processors
      (room_run (events ++ [ParticipantDisconnected participant;
                            TrackSubscribed KIND_AUDIO participant]) empty_room)
      !! participant = Some p /\
    p = mkProcessor participant (audio_buffer p) false 0 0 false /\
    audio_buffer p <> audio_buffer old /\
    ba_get (room_heap
              (room_run (events ++ [ParticipantDisconnected participant;
                                    TrackSubscribed KIND_AUDIO participant])
                 empty_room))
      (audio_buffer p) = [].
Proof.
  intros Hold.
  change (events ++ [ParticipantDisconnected participant;
                     TrackSubscribed KIND_AUDIO participant])
    with (events ++ [ParticipantDisconnected participant]
                 ++ [TrackSubscribed KIND_AUDIO participant]).
  rewrite app_assoc, !room_run_snoc.
  set (r := room_run events empty_room) in *.
  destruct (room_ok_run events) as [Hown _]. fold r in Hown.
  destruct (Hown _ _ Hold) as [Hid Hsome].
  destruct (tracked_was_subscribed events _ _ Hold) as [Hbot _].
  cbn [room_step].
  set (r1 := (on_participant_disconnected participant r).1).
  assert (Hr1 : processors r1 !! participant = None /\ room_heap r1 = room_heap r).
  { subst r1. unfold on_participant_disconnected. rewrite Hold. simpl.
    by rewrite lookup_delete_eq. }
  destruct Hr1 as [Hnone Hheap].
  destruct (subscribe_creates_session r1 participant Hnone Hbot)
    as (p & Hp & Hidle & Hfresh & Hempty & _).
  exists p. repeat split; try done.
  intros Heq. rewrite Hheap, Heq in Hfresh. rewrite Hfresh in Hsome.
  by destruct Hsome.
Qed.

Lemma reconnect_gets_fresh_session_witness :
  exists p,
    processors
      (room_run ([TrackSubscribed KIND_AUDIO "alice"]
                 ++ [ParticipantDisconnected "alice";
                     TrackSubscribed KIND_AUDIO "alice"]) empty_room)
      !! "alice" = Some p /\
    audio_buffer p <> audio_buffer (mkProcessor "alice" 1%positive false 0 0 false).
Proof.
  destruct (reconnect_gets_fresh_session [TrackSubscribed KIND_AUDIO "alice"]
              "alice" (mkProcessor "alice" 1%positive false 0 0 false))
    as (p & Hp & _ & Hne & _); [vm_compute; reflexivity|].
  exists p. split; [exact Hp | exact Hne].
Defined.

(** ** Sequences of classified frames *)

Lemma speech_accumulates frames :
  forall w,
    loop w = AtFor ->
    processing_lock (self w) = false ->
    existsb is_scheduled (tasks w) = false ->
    speech_duration_ms (self w) + 30 * Z.of_nat (length frames) < 20000 ->
    exists w',
      run (feed_frames frames speech) w = Some w' /\
      buffer w' = buffer w ++ concat frames /\
      speech_duration_ms (self w')
      = speech_duration_ms (self w) + 30 * Z.of_nat (length frames) /\
      tasks w' = tasks w /\
      loop w' = AtFor /\
      processing_lock (self w') = false /\
      (frames <> [] -> is_speaking (self w') = true /\ silence_frames (self w') = 0).
Proof.
  induction frames as [|d frames IH]; intros w Hloop Hlock Hsched Hdur.
  - exists w. simpl. rewrite app_nil_r, Z.add_0_r. done.
  - cbn [length] in Hdur. unfold feed_frames. cbn [flat_map].
    change (([Frame d; speech] ++ flat_map (fun d0 => [Frame d0; speech]) frames))
      with ([Frame d; speech] ++ feed_frames frames speech).
    rewrite run_app. unfold speech at 1.
    erewrite classify; [| done | done | done | by apply handle_vad_speech].
    destruct (20000 <=? speech_duration_ms (self w) + 30) eqn:E; [lia|].
    set (w1 := mkSession _ _ _ _ _).
    destruct (IH w1) as (w' & Hrun & Hbuf & Hd & Ht & Hl & Hk & Hsp).
    + done.
    + done.
    + subst w1. simpl. by rewrite app_nil_r.
    + subst w1. simpl. lia.
    + exists w'. split; [done|]. subst w1. unfold buffer in *. simpl in *.
      rewrite ba_get_extend in Hbuf. rewrite app_nil_r in Ht.
      rewrite Hbuf, Hd, <- app_assoc. repeat split; try done; try lia.
      all: destruct frames as [|d' frames'];
        [simpl in Hrun; injection Hrun as <-; done | by apply Hsp].
Qed.

(** X26. Frames classified as speech one after the other are appended
    to the speech buffer in arrival order, each adding 30 ms to the
    accumulated duration, as long as the duration stays below the
    20 s cap: the buffer is then the old buffer followed by all the
    frames, and no turn is created. *)
Theorem speech_frames_accumulate frames w :
  loop w = AtFor ->
  processing_lock (self w) = false ->
  existsb is_scheduled (tasks w) = false ->
  speech_duration_ms (self w) + 30 * Z.of_nat (length frames) < 20000 ->
  exists w',
    run (feed_frames frames speech) w = Some w' /\
    buffer w' = buffer w ++ concat frames /\
    speech_duration_ms (self w')
    = speech_duration_ms (self w) + 30 * Z.of_nat (length frames) /\
    tasks w' = tasks w.
Proof.
  intros Hloop Hlock Hsched Hdur.
  destruct (speech_accumulates frames w Hloop Hlock Hsched Hdur)
    as (w' & Hrun & Hbuf & Hd & Ht & _).
  by exists w'.
Qed.

Lemma speech_frames_accumulate_witness :
  exists w',
    run (feed_frames [frame_a; frame_z] speech) listening_session = Some w' /\
    buffer w' = buffer listening_session ++ concat [frame_a; frame_z] /\
    speech_duration_ms (self w')
    = speech_duration_ms (self listening_session) + 30 * Z.of_nat 2 /\
    tasks w' = tasks listening_session.
Proof.
  apply (speech_frames_accumulate [frame_a; frame_z] listening_session);
    [reflexivity | reflexivity | reflexivity | vm_compute; reflexivity].
Defined.

Lemma silence_counts n d :
  forall w,
    loop w = AtFor ->
    processing_lock (self w) = false ->
    existsb is_scheduled (tasks w) = false ->
    is_speaking (self w) = true ->
    (silence_frames (self w) + Z.of_nat n) * 30 < 700 ->
    speech_duration_ms (self w) < 20000 ->
    exists w',
      run (feed n d silence) w = Some w' /\
      heap w' = heap w /\
      self w' = set_silence_frames (silence_frames (self w) + Z.of_nat n) (self w) /\
      tasks w' = tasks w /\
      loop w' = AtFor.
Proof.
  induction n as [|n IH]; intros w Hloop Hlock Hsched Hsp Hsil Hdur.
  - exists w. simpl. rewrite Z.add_0_r. repeat split; try done.
    by destruct (self w).
  - cbn [feed].
    change (Frame d :: silence :: feed n d silence)
      with ([Frame d; silence] ++ feed n d silence).
    rewrite run_app. unfold silence at 1.
    erewrite classify; [| done | done | done |
      rewrite (handle_vad_silence (Some false)) by done; by rewrite Hsp].
    destruct (700 <=? (silence_frames (self w) + 1) * 30) eqn:E1; [lia|].
    destruct (20000 <=? speech_duration_ms (self w)) eqn:E2; [lia|].
    set (w1 := mkSession _ _ _ _ _).
    destruct (IH w1) as (w' & Hrun & Hh & Hs & Ht & Hl);
      try (subst w1; simpl; rewrite ?app_nil_r; done || lia).
    exists w'. split; [done|]. subst w1. simpl in *. rewrite app_nil_r in Ht.
    repeat split; try done. rewrite Hs. unfold set_silence_frames. simpl.
    f_equal. lia.
Qed.

(** X27. A pause shorter than 700 ms inside an utterance is forgotten:
    when fewer than 24 silence frames are followed by a speech frame,
    the silence counter restarts from zero, so the silence frames that
    follow are counted from the start; no turn is created, and the
    buffer has gained exactly the speech frame (the silence frames are
    not buffered). *)
Theorem short_pause_is_forgotten n1 n2 d0 d w :
  loop w = AtFor ->
  processing_lock (self w) = false ->
  existsb is_scheduled (tasks w) = false ->
  is_speaking (self w) = true ->
  (silence_frames (self w) + Z.of_nat n1) * 30 < 700 ->
  Z.of_nat n2 * 30 < 700 ->
  speech_duration_ms (self w) + 30 < 20000 ->
  exists w',
    run (feed n1 d0 silence ++ [Frame d; speech] ++ feed n2 d0 silence) w = Some w' /\
    tasks w' = tasks w /\
    silence_frames (self w') = Z.of_nat n2 /\
    is_speaking (self w') = true /\
    buffer w' = buffer w ++ d /\
    speech_duration_ms (self w') = speech_duration_ms (self w) + 30.
Proof.
  intros Hloop Hlock Hsched Hsp Hs1 Hs2 Hdur.
  destruct (silence_counts n1 d0 w) as (w1 & Hr1 & Hh1 & Hp1 & Ht1 & Hl1);
    try done; [lia|].
  rewrite run_app, Hr1, run_app. unfold speech at 1.
  assert (Hlock1 : processing_lock (self w1) = false) by by rewrite Hp1.
  assert (Hsched1 : existsb is_scheduled (tasks w1) = false) by by rewrite Ht1.
  erewrite classify; [| done | done | done | by apply handle_vad_speech].
  assert (Hd1 : speech_duration_ms (self w1) = speech_duration_ms (self w))
    by by rewrite Hp1.
  rewrite Hd1.
  destruct (20000 <=? speech_duration_ms (self w) + 30) eqn:E; [lia|].
  set (w2 := mkSession _ _ _ _ _).
  destruct (silence_counts n2 d0 w2) as (w' & Hr2 & Hh2 & Hp2 & Ht2 & Hl2);
    try (subst w2; simpl; rewrite ?app_nil_r; done || lia).
  exists w'. split; [done|]. unfold buffer. rewrite Hh2, Hp2, Ht2.
  subst w2. simpl. rewrite app_nil_r, ba_get_extend, Hh1, Hp1, Ht1.
  repeat split; done.
Qed.

Lemma short_pause_is_forgotten_witness :
  exists w',
    run (feed 3 frame_z silence ++ [Frame frame_a; speech] ++ feed 2 frame_z silence)
        listening_session = Some w' /\
    tasks w' = tasks listening_session /\
    silence_frames (self w') = Z.of_nat 2 /\
    is_speaking (self w') = true /\
    buffer w' = buffer listening_session ++ frame_a /\
    speech_duration_ms (self w')
    = speech_duration_ms (self listening_session) + 30.
Proof.
  apply (short_pause_is_forgotten 3 2 frame_z frame_a listening_session);
    vm_compute; reflexivity.
Defined.

(** X28. While the participant is not speaking, frames that the VAD
    service does not classify as speech (silence, a missing [is_speech]
    key, a status other than 200 or a [ClientError]) are posted one by
    one and leave the session as it was: nothing is buffered, no
    counter moves and no turn is created. *)
Theorem idle_session_ignores_non_speech frames :
  forall w,
    loop w = AtFor ->
    processing_lock (self w) = false ->
    existsb is_scheduled (tasks w) = false ->
    is_speaking (self w) = false ->
    speech_duration_ms (self w) < 20000 ->
    forallb (fun fr => not_speech fr.2) frames = true ->
    run (classified frames) w
    = Some (mkSession (heap w) (self w) AtFor (tasks w)
                      (calls w ++ map (fun fr => CallVAD fr.1) frames)).
Proof.
  induction frames as [|[d r] frames IH];
    intros w Hloop Hlock Hsched Hsp Hdur Hall.
  - simpl. rewrite app_nil_r. destruct w; simpl in *. by subst.
  - unfold classified. cbn [flat_map].
    change ([Frame (d, r).1; VadReply (d, r).2]
              ++ flat_map (fun fr => [Frame fr.1; VadReply fr.2]) frames)
      with ([Frame d; VadReply r] ++ classified frames).
    cbn [forallb] in Hall. apply andb_prop in Hall as [Hr Hall].
    rewrite run_app.
    assert (Hvad : handle_vad r d (heap w) (self w) = Normal (heap w, self w, 0%nat)).
    { destruct r as [[|]|status body]; simpl in Hr; try done.
      unfold handle_vad.
      destruct (status =? 200) eqn:Es; simpl; [|done].
      simpl in Hr. apply negb_true_iff in Hr. rewrite Hr, Hsp.
      unfold MAX_SPEECH_DURATION_S.
      destruct (20 * 1000 <=? speech_duration_ms (self w)) eqn:E; [lia|done]. }
    erewrite classify; [| done | done | done | exact Hvad].
    rewrite IH; simpl; rewrite ?app_nil_r; try done.
    by rewrite <- app_assoc.
Qed.

Lemma idle_session_ignores_non_speech_witness :
  run (classified [(frame_a, Response 200 (Some false));
                   (frame_z, Response 503 None);
                   (frame_a, Raised ClientError);
                   (frame_z, Response 200 None)])
      (new_session "alice")
  = Some (mkSession (heap (new_session "alice")) (self (new_session "alice")) AtFor
            (tasks (new_session "alice"))
            (calls (new_session "alice")
               ++ map (fun fr : bytes * http (option bool) => CallVAD fr.1)
                    [(frame_a, Response 200 (Some false));
                     (frame_z, Response 503 None);
                     (frame_a, Raised ClientError);
                     (frame_z, Response 200 None)])).
Proof.
  apply (idle_session_ignores_non_speech
           [(frame_a, Response 200 (Some false));
            (frame_z, Response 503 None);
            (frame_a, Raised ClientError);
            (frame_z, Response 200 None)] (new_session "alice"));
    vm_compute; reflexivity.
Defined.

Lemma loop_exited_step e w w' :
  loop w = LoopExited ->
  step e w = Some w' ->
  loop w' = LoopExited /\
  filter (fun c => is_vad c = true) (calls w')
  = filter (fun c => is_vad c = true) (calls w).
Proof.
  intros Hloop H. destruct e as [d|r| |i|i r]; simpl in H.
  - by rewrite Hloop in H.
  - by rewrite Hloop in H.
  - injection H as <-. done.
  - destruct (tasks w !! i) as [[|c|]|]; try done.
    destruct (processing_lock (self w)); [done|].
    destruct (trigger_conversation_turn (heap w) (self w)) as [[h p] c].
    injection H as <-. unfold settle.
    destruct c; simpl; rewrite ?filter_app, ?app_nil_r; done.
  - destruct (tasks w !! i) as [[|c|]|]; try done.
    destruct (resume c r) as [c'|]; [|done]. injection H as <-.
    unfold settle.
    destruct c'; simpl; rewrite ?filter_app, ?app_nil_r; done.
Qed.

Lemma loop_exited_run evs :
  forall w w',
    loop w = LoopExited ->
    run evs w = Some w' ->
    loop w' = LoopExited /\
    filter (fun c => is_vad c = true) (calls w')
    = filter (fun c => is_vad c = true) (calls w).
Proof.
  induction evs as [|e evs IH]; intros w w' Hloop H; simpl in H.
  - injection H as <-. done.
  - destruct (step e w) as [w1|] eqn:E; [|done].
    destruct (loop_exited_step _ _ _ Hloop E) as [Hl1 Hc1].
    destruct (IH _ _ Hl1 H) as [Hl Hc]. by rewrite Hc, Hc1.
Qed.

(** X29. An exception other than [ClientError] raised by the VAD
    request is not caught by [handle_vad]: it ends the frame loop.
    Whatever happens to the session afterwards, the loop stays ended,
    no further frame is taken from the stream and no further request
    is made to the VAD service. *)
Theorem vad_exception_ends_frame_loop d evs w w' :
  loop w = AwaitVad d ->
  startable w = false ->
  run (VadReply (Raised OtherException) :: evs) w = Some w' ->
  loop w' = LoopExited /\
  (forall d', step (Frame d') w' = None) /\
  filter (fun c => is_vad c = true) (calls w')
  = filter (fun c => is_vad c = true) (calls w).
Proof.
  intros Hloop Hst H. cbn [run] in H. unfold step at 1 in H.
  rewrite Hloop, Hst in H. cbn [handle_vad] in H.
  apply loop_exited_run in H as [Hl Hc]; [|done].
  repeat split; [done | | done].
  intros d'. simpl. by rewrite Hl.
Qed.

Lemma vad_exception_ends_frame_loop_witness :
  loop (mkSession speaking_heap speaking_processor LoopExited [Scheduled]
                  [CallVAD frame_a]) = LoopExited /\
  (forall d', step (Frame d')
                (mkSession speaking_heap speaking_processor LoopExited [Scheduled]
                           [CallVAD frame_a]) = None) /\
  filter (fun c => is_vad c = true)
         (calls (mkSession speaking_heap speaking_processor LoopExited [Scheduled]
                           [CallVAD frame_a]))
  = filter (fun c => is_vad c = true) (calls awaiting_session).
Proof.
  apply (vad_exception_ends_frame_loop frame_a [Trigger] awaiting_session);
    reflexivity.
Defined.
